(** * A verification development for the mini code analyzer

    The analyzer (metrics.py, principles.py) is a line-oriented text scanner
    plus two aggregation functions.  This file embeds it shallowly:

    - [PyStr]: the Python string operations the code calls
      ([str.strip], [str.startswith], [str.endswith], [str.lower],
      [str.splitlines], text-mode line iteration, [os.path.splitext],
      [os.path.join]);
    - [Re]: a backtracking matcher with the semantics of Python's [re]
      for the constructs that occur in the patterns of the code;
    - [Metrics]: [FileMetrics], [detect_language], [count_patterns],
      [analyse_file], [analyse_directory];
    - [Principles]: [evaluate_solid], [evaluate_functional].

    Modelling choices.
    - Text is a [string] whose characters are the code points below 256
      (U+0000..U+00FF); on these the classes [\s] and [\w],
      case-insensitive matching, [str.lower] and the line boundaries of
      [str.splitlines] are exactly those of Python.  A file that holds a
      character from U+0100 on is outside the development; among these
      characters are U+2028 and U+2029, at which [str.splitlines] breaks
      a line as well.
    - Python integers that count things are [nat]: every counter of the
      code starts at 0 (or 1) and is only ever incremented.
    - A Python float is the rational it holds ([Q]).  In metrics.py and
      main.py a quotient of two counters stands for its real value.  In
      principles.py, where every score goes through [round(x, 3)] and the
      binary value of the quotient decides the last digit, the arithmetic
      is that of IEEE 754 doubles: [to_double] rounds a rational to the
      nearest double (53-bit significand, ties to even, subnormal
      numbers included), every float operation of the source is the
      exact operation followed by [to_double], and [round(x, 3)] is the
      double nearest to the three-decimal number nearest to [x].  Only
      the upper end of the exponent range is left out: a quotient of
      2^1024 or more, where Python raises OverflowError, needs a counter
      above 10^308.
    - The file system is a function from paths to file states; a file is
      either unopenable or holds a sequence of decoding units. *)

From Stdlib Require Import Ascii String List Bool Arith ZArith QArith.
From Stdlib Require Import Qround Qminmax Lia Lqa Permutation.
Import ListNotations.

Local Open Scope string_scope.
Local Open Scope list_scope.
Local Open Scope nat_scope.

(* ================================================================== *)
(** * Python string operations *)
(* ================================================================== *)

Module PyStr.

Definition code (c : ascii) : nat := nat_of_ascii c.

Definition between (lo hi : nat) (c : ascii) : bool :=
  (lo <=? code c) && (code c <=? hi).

(** [str.isspace] on one character: TAB..CR, FS..US, SPACE, NEL, NBSP. *)
Definition isspace (c : ascii) : bool :=
  between 9 13 c || between 28 32 c || (code c =? 133) || (code c =? 160).

(** [str.isalnum] on one character (alphabetic, decimal, digit or
    numeric in the Unicode database, restricted to U+0000..U+00FF). *)
Definition isalnum (c : ascii) : bool :=
  between 48 57 c || between 65 90 c || between 97 122 c
  || (code c =? 170) || between 178 179 c || (code c =? 181)
  || between 185 186 c || between 188 190 c
  || between 192 214 c || between 216 246 c || between 248 255 c.

(** The class [\w] of [re] on a [str] pattern. *)
Definition isword (c : ascii) : bool := isalnum c || (c =? "_")%char.

(** [str.lower] on one character. *)
Definition lower_char (c : ascii) : ascii :=
  if between 65 90 c
     || (between 192 222 c && negb (code c =? 215))
  then ascii_of_nat (code c + 32) else c.

Fixpoint lower (s : string) : string :=
  match s with
  | EmptyString => EmptyString
  | String c s' => String (lower_char c) (lower s')
  end.

(** [s + c] *)
Definition snoc (s : string) (c : ascii) : string :=
  String.append s (String c EmptyString).

Fixpoint rev_onto (s acc : string) : string :=
  match s with
  | EmptyString => acc
  | String c s' => rev_onto s' (String c acc)
  end.

Definition rev (s : string) : string := rev_onto s EmptyString.

(** [s.startswith(p)] *)
Fixpoint startswith (s p : string) : bool :=
  match p, s with
  | EmptyString, _ => true
  | String _ _, EmptyString => false
  | String a p', String b s' => (a =? b)%char && startswith s' p'
  end.

(** [s.endswith(p)]: compares the last [len(p)] characters of [s]. *)
Definition endswith (s p : string) : bool :=
  (String.length p <=? String.length s)
  && String.eqb (substring (String.length s - String.length p)
                           (String.length p) s) p.

Fixpoint lstrip (s : string) : string :=
  match s with
  | EmptyString => EmptyString
  | String c s' => if isspace c then lstrip s' else s
  end.

Definition rstrip (s : string) : string := rev (lstrip (rev s)).

(** [s.strip()] *)
Definition strip (s : string) : string := rstrip (lstrip s).

Definition newline : ascii := ascii_of_nat 10.
Definition carriage_return : ascii := ascii_of_nat 13.
Definition form_feed : ascii := ascii_of_nat 12.

(** [s.rstrip("\n")] *)
Fixpoint lstrip_newlines (s : string) : string :=
  match s with
  | EmptyString => EmptyString
  | String c s' => if (c =? newline)%char then lstrip_newlines s' else s
  end.

Definition rstrip_newlines (s : string) : string :=
  rev (lstrip_newlines (rev s)).

(** Universal-newlines translation of a text-mode file opened with the
    default [newline=None]: CR LF and lone CR both read as LF. *)
Fixpoint universal_newlines (s : string) : string :=
  match s with
  | EmptyString => EmptyString
  | String c s' =>
      if (c =? carriage_return)%char then
        match s' with
        | String d s'' =>
            if (d =? newline)%char
            then String newline (universal_newlines s'')
            else String newline (universal_newlines s')
        | EmptyString => String newline EmptyString
        end
      else String c (universal_newlines s')
  end.

(** Lines of a text file as [f.readlines()] and [for line in f] give
    them: split after every LF, the terminator kept. *)
Fixpoint lines_from (cur s : string) : list string :=
  match s with
  | EmptyString =>
      match cur with EmptyString => [] | _ => [cur] end
  | String c s' =>
      if (c =? newline)%char
      then (snoc cur c) :: lines_from EmptyString s'
      else lines_from (snoc cur c) s'
  end.

Definition readlines (text : string) : list string :=
  lines_from EmptyString text.

(** The line boundaries of [str.splitlines] among the characters
    U+0000..U+00FF: LF, VT, FF, CR, FS, GS, RS and NEL (and CR LF as one
    boundary).  The two other boundaries of [str.splitlines], U+2028 and
    U+2029, are not characters of the alphabet of [string]. *)
Definition is_line_boundary (c : ascii) : bool :=
  between 10 13 c || between 28 30 c || (code c =? 133).

Fixpoint splitlines_from (cur s : string) : list string :=
  match s with
  | EmptyString =>
      match cur with EmptyString => [] | _ => [cur] end
  | String c s' =>
      if is_line_boundary c then
        if (c =? carriage_return)%char then
          match s' with
          | String d s'' =>
              if (d =? newline)%char
              then cur :: splitlines_from EmptyString s''
              else cur :: splitlines_from EmptyString s'
          | EmptyString => [cur]
          end
        else cur :: splitlines_from EmptyString s'
      else splitlines_from (snoc cur c) s'
  end.

(** [text.splitlines()] *)
Definition splitlines (text : string) : list string :=
  splitlines_from EmptyString text.

(** The part of [p] after its last ["/"] ([p] itself if there is none). *)
Fixpoint basename_from (cur s : string) : string :=
  match s with
  | EmptyString => cur
  | String c s' =>
      if (c =? "/")%char then basename_from EmptyString s'
      else basename_from (snoc cur c) s'
  end.

Definition basename (p : string) : string := basename_from EmptyString p.

Fixpoint lstrip_dots (s : string) : string :=
  match s with
  | EmptyString => EmptyString
  | String c s' => if (c =? ".")%char then lstrip_dots s' else s
  end.

(** The suffix of [s] that starts at its last ["."], if it has one. *)
Fixpoint last_dot_suffix (s : string) : option string :=
  match s with
  | EmptyString => None
  | String c s' =>
      match last_dot_suffix s' with
      | Some e => Some e
      | None => if (c =? ".")%char then Some s else None
      end
  end.

(** [os.path.splitext(p)[1]] on a POSIX system: the extension starts at
    the last dot of the base name, leading dots of the base name do
    not count. *)
Definition splitext_ext (p : string) : string :=
  match last_dot_suffix (lstrip_dots (basename p)) with
  | Some e => e
  | None => EmptyString
  end.

(** [os.path.join(a, b)] on a POSIX system. *)
Definition path_join (a b : string) : string :=
  if startswith b "/" then b
  else if String.eqb a EmptyString || endswith a "/" then String.append a b
  else String.append a (String.append "/" b).

End PyStr.

(* ================================================================== *)
(** * Regular expressions with the matching order of Python's [re] *)
(* ================================================================== *)

Module Re.
Import PyStr.

(** The constructs that occur in the patterns of the analyzer. *)
Inductive regex : Type :=
| Eps                           (* the empty pattern *)
| Chr (p : ascii -> bool)       (* one character of a class *)
| Seq (r1 r2 : regex)           (* r1 r2 *)
| Alt (r1 r2 : regex)           (* r1|r2, r1 tried first *)
| Star (r : regex)              (* r*, greedy *)
| LazyStar (r : regex)          (* r*?, minimal *)
| Bol (multiline : bool)        (* ^ *)
| WordBoundary                  (* \b *)
| Group (r : regex).            (* (r), capture group 1 *)

(** A position in the subject: the character just before it (if any),
    what is left to read, and the text captured by group 1 so far. *)
Record mstate : Type := MState {
  before : option ascii;
  rest : string;
  group1 : option string
}.

Definition word_before (st : mstate) : bool :=
  match before st with Some c => isword c | None => false end.

Definition word_after (st : mstate) : bool :=
  match rest st with String c _ => isword c | EmptyString => false end.

Definition at_word_boundary (st : mstate) : bool :=
  xorb (word_before st) (word_after st).

Definition at_line_start (multiline : bool) (st : mstate) : bool :=
  match before st with
  | None => true
  | Some c => multiline && (c =? newline)%char
  end.

(** What [r] consumed between [st] and a later position [st']. *)
Definition consumed (st st' : mstate) : string :=
  substring 0 (String.length (rest st) - String.length (rest st')) (rest st).

(** [exec r st k]: match [r] at [st], then continue with [k]; the
    alternatives are explored in the order of a backtracking matcher
    and the first success is returned.  A repetition stops when its
    body does not advance, so the number of rounds is bounded by the
    length of what is left to read. *)
Fixpoint exec (r : regex) (st : mstate)
         (k : mstate -> option mstate) {struct r} : option mstate :=
  match r with
  | Eps => k st
  | Chr p =>
      match rest st with
      | String c s' =>
          if p c then k (MState (Some c) s' (group1 st)) else None
      | EmptyString => None
      end
  | Seq r1 r2 => exec r1 st (fun st1 => exec r2 st1 k)
  | Alt r1 r2 =>
      match exec r1 st k with
      | Some res => Some res
      | None => exec r2 st k
      end
  | Star r1 =>
      (fix rounds (fuel : nat) (cur : mstate) {struct fuel} : option mstate :=
         match fuel with
         | O => k cur
         | S fuel' =>
             match exec r1 cur
                     (fun nxt =>
                        if String.length (rest nxt) <? String.length (rest cur)
                        then rounds fuel' nxt else None) with
             | Some res => Some res
             | None => k cur
             end
         end) (String.length (rest st)) st
  | LazyStar r1 =>
      (fix rounds (fuel : nat) (cur : mstate) {struct fuel} : option mstate :=
         match k cur with
         | Some res => Some res
         | None =>
             match fuel with
             | O => None
             | S fuel' =>
                 exec r1 cur
                   (fun nxt =>
                      if String.length (rest nxt) <? String.length (rest cur)
                      then rounds fuel' nxt else None)
             end
         end) (String.length (rest st)) st
  | Bol multiline => if at_line_start multiline st then k st else None
  | WordBoundary => if at_word_boundary st then k st else None
  | Group r1 =>
      exec r1 st
        (fun st' => k (MState (before st') (rest st') (Some (consumed st st'))))
  end.

(** One attempt at a given position. *)
Definition match_here (r : regex) (prev : option ascii) (s : string)
  : option mstate :=
  exec r (MState prev s None) (fun st => Some st).

(** [re.match(r, s)]: an attempt at the start of [s] only. *)
Definition re_match (r : regex) (s : string) : bool :=
  match match_here r None s with Some _ => true | None => false end.

(** The leftmost match at or after the current position. *)
Fixpoint search_from (r : regex) (prev : option ascii) (s : string)
  : option mstate :=
  match match_here r prev s with
  | Some st => Some st
  | None =>
      match s with
      | String c s' => search_from r (Some c) s'
      | EmptyString => None
      end
  end.

(** [re.search(r, s)] as a truth value. *)
Definition re_search (r : regex) (s : string) : bool :=
  match search_from r None s with Some _ => true | None => false end.

(** [re.findall(r, s)]: the non-overlapping matches from left to right,
    each reported by its group 1 when the pattern has one and by the
    whole match otherwise.  After a match the scan resumes where the
    match ended.  No pattern of the analyzer can match the empty
    string; for an empty match the scan here moves on by one
    character. *)
Fixpoint findall_from (fuel : nat) (r : regex) (prev : option ascii)
         (s : string) : list string :=
  match fuel with
  | O => []
  | S fuel' =>
      match match_here r prev s with
      | Some st =>
          let whole :=
            substring 0 (String.length s - String.length (rest st)) s in
          let item :=
            match group1 st with Some g => g | None => whole end in
          if String.length (rest st) <? String.length s
          then item :: findall_from fuel' r (before st) (rest st)
          else
            match s with
            | String c s' => item :: findall_from fuel' r (Some c) s'
            | EmptyString => [item]
            end
      | None =>
          match s with
          | String c s' => findall_from fuel' r (Some c) s'
          | EmptyString => []
          end
      end
  end.

Definition findall (r : regex) (s : string) : list string :=
  findall_from (S (String.length s)) r None s.

(** ** Pattern syntax *)

Definition chr (c : ascii) : regex := Chr (fun x => (x =? c)%char).

(** A literal character under [re.IGNORECASE]. *)
Definition chr_i (c : ascii) : regex :=
  Chr (fun x => (lower_char x =? lower_char c)%char).

Fixpoint lit (s : string) : regex :=
  match s with
  | EmptyString => Eps
  | String c EmptyString => chr c
  | String c s' => Seq (chr c) (lit s')
  end.

Fixpoint lit_i (s : string) : regex :=
  match s with
  | EmptyString => Eps
  | String c EmptyString => chr_i c
  | String c s' => Seq (chr_i c) (lit_i s')
  end.

Definition space : regex := Chr isspace.                      (* \s *)
Definition word : regex := Chr isword.                        (* \w *)
Definition dot : regex := Chr (fun x => negb (x =? newline)%char).  (* . *)
Definition none_of (cs : list ascii) : regex :=               (* [^...] *)
  Chr (fun x => negb (existsb (fun c => (x =? c)%char) cs)).
Definition plus (r : regex) : regex := Seq r (Star r).        (* r+ *)
Definition opt (r : regex) : regex := Alt r Eps.              (* r? *)

Fixpoint alts (rs : list regex) : regex :=                    (* r1|...|rn *)
  match rs with
  | [] => Eps
  | [r] => r
  | r :: rs' => Alt r (alts rs')
  end.

Fixpoint seqs (rs : list regex) : regex :=                    (* r1 ... rn *)
  match rs with
  | [] => Eps
  | [r] => r
  | r :: rs' => Seq r (seqs rs')
  end.

End Re.

(* ================================================================== *)
(** * metrics.py *)
(* ================================================================== *)

Module Metrics.
Import PyStr Re.

(** ** Files and directories *)

(** The bytes of a file as the UTF-8 decoder groups them: a well-formed
    sequence that decodes to a character, or a byte that does not
    decode. *)
Inductive decoding_unit : Type :=
| Decoded (c : ascii)
| Undecodable.

(** [open(path, "r", ...)] either raises or gives the content. *)
Inductive file_state : Type :=
| Unopenable
| Holds (raw : list decoding_unit).

Definition filesystem : Type := string -> file_state.

(** Decoding with [errors="ignore"]: what does not decode is dropped. *)
Fixpoint decode_ignore (raw : list decoding_unit) : string :=
  match raw with
  | [] => EmptyString
  | Decoded c :: raw' => String c (decode_ignore raw')
  | Undecodable :: raw' => decode_ignore raw'
  end.

(** [with open(path, "r", encoding="utf-8", errors="ignore") as f:
    f.read()]; [None] stands for the exception. *)
Definition read_text (fs : filesystem) (path : string) : option string :=
  match fs path with
  | Unopenable => None
  | Holds raw => Some (universal_newlines (decode_ignore raw))
  end.

(** The content of a file all of whose bytes decode, to the text [s]. *)
Fixpoint encode (s : string) : list decoding_unit :=
  match s with
  | EmptyString => []
  | String c s' => Decoded c :: encode s'
  end.

#[local] Set Warnings "-register-all".

(** A directory: its name, its sub-directories and its plain files, in
    the order in which the system lists them. *)
Inductive dirtree : Type :=
| Dir (name : string) (subdirs : list dirtree) (files : list string).

Definition dir_name (t : dirtree) : string :=
  match t with Dir name _ _ => name end.

(** [os.walk(top)], top-down, on the directory [t] found at [top]: one
    [(root, files)] pair per directory. *)
Fixpoint walk (top : string) (t : dirtree) : list (string * list string) :=
  match t with
  | Dir _ subdirs files =>
      (top, files)
        :: flat_map (fun sub => walk (path_join top (dir_name sub)) sub)
                    subdirs
  end.

(** ** FileMetrics *)

(** The four values [complexity_category] takes. *)
Inductive category : Type := Simple | Moderate | Complex | VeryHigh.

(** The string the code stores for each of them. *)
Definition category_label (c : category) : string :=
  match c with
  | Simple => "Simple"
  | Moderate => "Moderate"
  | Complex => "Complex"
  | VeryHigh => "Very High"
  end.

Definition category_rank (c : category) : nat :=
  match c with
  | Simple => 0
  | Moderate => 1
  | Complex => 2
  | VeryHigh => 3
  end.

Record FileMetrics : Type := mkFileMetrics {
  path : string;
  num_functions : nat;
  num_classes : nat;
  num_interfaces : nat;
  cyclomatic_complexity : nat;
  complexity_category : category;
  line_count : nat;
  comment_count : nat;
  long_line_count : nat;
  mixed_indent : bool;
  language : string;
  additional_info : list (string * Q)
}.

(** [FileMetrics(path=path)]: the dataclass defaults. *)
Definition new_metrics (p : string) : FileMetrics :=
  mkFileMetrics p 0 0 0 1 Simple 0 0 0 false "unknown" [].

(** [a / b] on integers: the quotient, or [None] for ZeroDivisionError. *)
Definition truediv (a b : nat) : option Q :=
  match b with
  | O => None
  | S _ => Some (Z.of_nat a # Pos.of_nat b)
  end.

Definition comment_ratio (m : FileMetrics) : option Q :=
  if line_count m =? 0 then Some 0%Q
  else truediv (comment_count m) (line_count m).

Definition long_line_ratio (m : FileMetrics) : option Q :=
  if line_count m =? 0 then Some 0%Q
  else truediv (long_line_count m) (line_count m).

(** ** detect_language *)

Definition language_table : list (string * string) :=
  [ (".py", "python"); (".js", "javascript"); (".java", "java");
    (".cpp", "cpp"); (".c", "c"); (".cs", "csharp");
    (".ts", "typescript"); (".rb", "ruby"); (".go", "go") ].

Fixpoint dict_get (table : list (string * string)) (key default : string)
  : string :=
  match table with
  | [] => default
  | (k, v) :: table' =>
      if String.eqb k key then v else dict_get table' key default
  end.

Definition detect_language (filename : string) : string :=
  let ext := lower (splitext_ext filename) in
  dict_get language_table ext "unknown".

(** ** count_patterns *)

(** [r"\b" + re.escape(kw) + r"\b"]: the keyword, every character
    taken literally, between two word boundaries. *)
Definition keyword_regex (kw : string) : regex :=
  seqs [WordBoundary; lit kw; WordBoundary].

Definition count_patterns (patterns : list string) (line : string) : nat :=
  fold_left
    (fun count kw =>
       if re_search (keyword_regex kw) line then count + 1 else count)
    patterns 0.

(** ** analyse_file *)

Definition decision_keywords : list string :=
  [ "if"; "elif"; "else if"; "for"; "while"; "case"; "switch";
    "catch"; "except"; "&&"; "||"; "?"; "and"; "or" ].

(** [^\s*(def|function|func|public\s+static|private\s+static|public|
    private|protected|static|final)?\s*\w+\s*\(.*\)] *)
Definition function_patterns : list regex :=
  [ seqs [ Bol false; Star space;
           opt (Group (alts [ lit "def"; lit "function"; lit "func";
                              seqs [lit "public"; plus space; lit "static"];
                              seqs [lit "private"; plus space; lit "static"];
                              lit "public"; lit "private"; lit "protected";
                              lit "static"; lit "final" ]));
           Star space; plus word; Star space;
           chr "("; Star dot; chr ")" ] ].

(** [^\s*(class|struct)\b] *)
Definition class_patterns : list regex :=
  [ seqs [ Bol false; Star space;
           Group (alts [lit "class"; lit "struct"]); WordBoundary ] ].

(** [^\s*interface\b] *)
Definition interface_patterns : list regex :=
  [ seqs [ Bol false; Star space; lit "interface"; WordBoundary ] ].

(** [^(\s+)] *)
Definition indent_pattern : regex :=
  seqs [ Bol false; Group (plus space) ].

(** [for pattern in patterns: if pattern.match(line): ...; break] *)
Definition any_match (patterns : list regex) (line : string) : bool :=
  existsb (fun pattern => re_match pattern line) patterns.

Definition is_comment_line (stripped : string) : bool :=
  startswith stripped "#" || startswith stripped "//"
  || startswith stripped "/*" || startswith stripped "*"
  || startswith stripped "--".

(** The local variables of [analyse_file] while it reads the lines. *)
Record scan_state : Type := mkScan {
  metrics : FileMetrics;
  indent_char : option ascii;
  complexity : nat
}.

Definition set_counts (m : FileMetrics)
           (functions classes interfaces lines comments long_lines : nat)
           (mixed : bool) : FileMetrics :=
  mkFileMetrics (path m) functions classes interfaces
                (cyclomatic_complexity m) (complexity_category m)
                lines comments long_lines mixed
                (language m) (additional_info m).

(** The indentation check of one line of a Python file. *)
Definition indent_step (indent : option ascii) (mixed : bool)
           (line : string) : option ascii * bool :=
  match match_here indent_pattern None line with
  | Some found =>
      match group1 found with
      | Some (String current_char _) =>
          match indent with
          | None => (Some current_char, mixed)
          | Some c =>
              if negb (current_char =? c)%char
              then (indent, true) else (indent, mixed)
          end
      | _ => (indent, mixed)
      end
  | None => (indent, mixed)
  end.

(** The body of [for line in lines]. *)
Definition scan_line (st : scan_state) (line : string) : scan_state :=
  let m := metrics st in
  let lines := line_count m + 1 in
  let stripped := strip line in
  let comments :=
    if is_comment_line stripped
    then comment_count m + 1 else comment_count m in
  let '(indent, mixed) :=
    if String.eqb (language m) "python"
    then indent_step (indent_char st) (mixed_indent m) line
    else (indent_char st, mixed_indent m) in
  let long_lines :=
    if 79 <? String.length (rstrip_newlines line)
    then long_line_count m + 1 else long_line_count m in
  let functions :=
    if any_match function_patterns line
    then num_functions m + 1 else num_functions m in
  let classes :=
    if any_match class_patterns line
    then num_classes m + 1 else num_classes m in
  let interfaces :=
    if any_match interface_patterns line
    then num_interfaces m + 1 else num_interfaces m in
  mkScan (set_counts m functions classes interfaces
                     lines comments long_lines mixed)
         indent
         (complexity st + count_patterns decision_keywords line).

(** The four-tier mapping at the end of [analyse_file]. *)
Definition categorise (complexity : nat) : category :=
  if complexity <=? 10 then Simple
  else if complexity <=? 20 then Moderate
  else if complexity <=? 50 then Complex
  else VeryHigh.

Definition with_language (m : FileMetrics) (lang : string) : FileMetrics :=
  mkFileMetrics (path m) (num_functions m) (num_classes m)
                (num_interfaces m) (cyclomatic_complexity m)
                (complexity_category m) (line_count m) (comment_count m)
                (long_line_count m) (mixed_indent m) lang
                (additional_info m).

Definition with_complexity (m : FileMetrics) (c : nat) : FileMetrics :=
  mkFileMetrics (path m) (num_functions m) (num_classes m)
                (num_interfaces m) c (categorise c)
                (line_count m) (comment_count m) (long_line_count m)
                (mixed_indent m) (language m) (additional_info m).

Definition scan_lines (p : string) (lines : list string) : FileMetrics :=
  let start :=
    mkScan (with_language (new_metrics p) (detect_language p)) None 1 in
  let final := fold_left scan_line lines start in
  with_complexity (metrics final) (complexity final).

(** [analyse_file(path)]: [None] when opening or reading raised. *)
Definition analyse_file (fs : filesystem) (p : string)
  : option FileMetrics :=
  match read_text fs p with
  | None => None
  | Some text => Some (scan_lines p (readlines text))
  end.

(** ** analyse_directory *)

(** The filter of the walker: [true] when the file goes to the scanner. *)
Definition selected (extensions : option (list string)) (fname : string)
  : bool :=
  let lang := detect_language fname in
  match extensions with
  | Some exts => existsb (fun ext => endswith fname ext) exts
  | None => negb (String.eqb lang "unknown")
  end.

(** The inner loop: the files of one directory. *)
Definition analyse_files_in (fs : filesystem)
           (extensions : option (list string))
           (root : string) (files : list string)
           (results : list FileMetrics) : list FileMetrics :=
  fold_left
    (fun results fname =>
       let file_path := path_join root fname in
       if selected extensions fname then
         match analyse_file fs file_path with
         | Some m => results ++ [m]
         | None => results
         end
       else results)
    files results.

(** [analyse_directory(path, extensions)] on the directory [tree] found
    at [path]. *)
Definition analyse_directory (fs : filesystem) (tree : dirtree)
           (path : string) (extensions : option (list string))
  : list FileMetrics :=
  fold_left
    (fun results entry =>
       analyse_files_in fs extensions (fst entry) (snd entry) results)
    (walk path tree) [].

End Metrics.

(* ================================================================== *)
(** * principles.py *)
(* ================================================================== *)

Module Principles.
Import PyStr Re Metrics.

(** Sequencing of computations that may raise ZeroDivisionError. *)
Definition bind {A B : Type} (x : option A) (f : A -> option B)
  : option B :=
  match x with
  | Some a => f a
  | None => None
  end.

Notation "x <- e ;; k" := (bind e (fun x => k))
  (at level 61, e at next level, right associativity).

(** ** Rounding *)

(** The integer nearest to [q], ties to the even one. *)
Definition round_half_even (q : Q) : Z :=
  let f := Qfloor q in
  match Qcompare (q - inject_Z f) (1 # 2) with
  | Lt => f
  | Gt => (f + 1)%Z
  | Eq => if Z.even f then f else (f + 1)%Z
  end.

(** ** Doubles *)

(** [2^k] *)
Definition pow2 (k : Z) : Q :=
  match k with
  | Z0 => 1
  | Zpos p => inject_Z (2 ^ Zpos p)
  | Zneg p => 1 # (2 ^ p)
  end.

(** For [q > 0], the [k] with [2^k <= q < 2^(k+1)]. *)
Definition binade (q : Q) : Z :=
  if Qle_bool 1 q then Z.log2 (Qfloor q)
  else (- Z.log2_up (Qceiling (/ q)))%Z.

(** The double nearest to [q > 0], ties to the even significand: a
    significand of 53 bits, with the exponent of the last bit not below
    -1074, that of the subnormal numbers. *)
Definition nearest_double (q : Q) : Q :=
  let e := Z.max (binade q - 52) (-1074) in
  inject_Z (round_half_even (q / pow2 e)) * pow2 e.

(** The double that a correctly rounded operation returns when its exact
    result is [q]. *)
Definition to_double (q : Q) : Q :=
  let r := Qred q in
  match r ?= 0 with
  | Eq => 0
  | Gt => nearest_double r
  | Lt => - nearest_double (- r)
  end.

(** [x - y] and [x / y] on floats. *)
Definition fsub (x y : Q) : Q := to_double (x - y).

Definition fquot (x y : Q) : Q := to_double (x / y).

(** [a / b] on integers: the double nearest to the quotient, or
    ZeroDivisionError. *)
Definition fdiv (a b : nat) : option Q :=
  match truediv a b with
  | Some q => Some (to_double q)
  | None => None
  end.

(** [round(x, 3)] on a float: the decimal with three digits after the
    point nearest to the value of [x], ties to the even digit, read back
    as a double. *)
Definition round3 (x : Q) : Q :=
  to_double (round_half_even (x * 1000) # 1000).

Definition of_nat (n : nat) : Q := inject_Z (Z.of_nat n).

(** ** evaluate_solid *)

(** [class\s+\w+\s*(?:extends|:)\s+\w+], IGNORECASE *)
Definition inheritance_pattern : regex :=
  seqs [ lit_i "class"; plus space; plus word; Star space;
         alts [lit_i "extends"; chr ":"]; plus space; plus word ].

(** [interface\s+\w+\s*{(BODY)}], where BODY is [[^}]] repeated any
    number of times, greedily.  The flags MULTILINE and DOTALL of the
    source change nothing: the pattern has neither [^] nor [.]. *)
Definition interface_pattern : regex :=
  seqs [ lit "interface"; plus space; plus word; Star space; chr "{";
         Group (Star (none_of ["}"%char])); chr "}" ].

(** [\b\w+\s*\(.*?\)\s*;] *)
Definition method_pattern : regex :=
  seqs [ WordBoundary; plus word; Star space; chr "("; LazyStar dot;
         chr ")"; Star space; chr ";" ].

(** [\s*(import|using|require)\b] *)
Definition import_pattern : regex :=
  seqs [ Star space;
         Group (alts [lit "import"; lit "using"; lit "require"]);
         WordBoundary ].

(** [(interface|abstract)], IGNORECASE *)
Definition abstraction_pattern : regex :=
  Group (alts [lit_i "interface"; lit_i "abstract"]).

(** The accumulators of the first loop of [evaluate_solid]. *)
Record solid_counts : Type := mkSolidCounts {
  total_classes : nat;
  total_functions : nat;
  classes_with_inheritance : nat;
  total_interfaces : nat;
  interface_methods : nat;
  uses_abstract_in_imports : nat
}.

(** The text of a record's file, [""] when reading it raised. *)
Definition text_or_empty (fs : filesystem) (fm : FileMetrics) : string :=
  match read_text fs (path fm) with
  | Some text => text
  | None => EmptyString
  end.

Definition count_interface_methods (text : string) : nat :=
  fold_left
    (fun n body => n + List.length (findall method_pattern body))
    (findall interface_pattern text) 0.

Definition count_abstract_imports (text : string) : nat :=
  fold_left
    (fun n line =>
       if re_match import_pattern line then
         if re_search abstraction_pattern line then n + 1 else n
       else n)
    (splitlines text) 0.

(** The body of the first [for fm in files]. *)
Definition solid_step (fs : filesystem) (acc : solid_counts)
           (fm : FileMetrics) : solid_counts :=
  let text := text_or_empty fs fm in
  mkSolidCounts
    (total_classes acc + num_classes fm)
    (total_functions acc + num_functions fm)
    (classes_with_inheritance acc
     + List.length (findall inheritance_pattern text))
    (total_interfaces acc + num_interfaces fm)
    (interface_methods acc + count_interface_methods text)
    (uses_abstract_in_imports acc + count_abstract_imports text).

Definition solid_totals (fs : filesystem) (files : list FileMetrics)
  : solid_counts :=
  fold_left (solid_step fs) files (mkSolidCounts 0 0 0 0 0 0).

(** The body of the second [for fm in files]: the import-like lines of
    one file, read line by line; nothing is added when opening raised. *)
Definition count_import_lines (fs : filesystem) (total_imports : nat)
           (fm : FileMetrics) : nat :=
  match read_text fs (path fm) with
  | Some text =>
      fold_left
        (fun n line => if re_match import_pattern line then n + 1 else n)
        (readlines text) total_imports
  | None => total_imports
  end.

Definition import_total (fs : filesystem) (files : list FileMetrics)
  : nat :=
  fold_left (count_import_lines fs) files 0.

(** [max(0.0, 1.0 - max(0, avg - 5) / 10)] *)
Definition degrade (avg : Q) : Q :=
  Qmax 0 (fsub 1 (fquot (Qmax 0 (fsub avg 5)) 10)).

Definition srp_score (c : solid_counts) : option Q :=
  if 0 <? total_classes c then
    avg_methods_per_class <-
      (if negb (total_classes c =? 0)
       then fdiv (total_functions c) (total_classes c)
       else Some 0%Q) ;;
    Some (degrade avg_methods_per_class)
  else Some 1%Q.

Definition ocp_score (c : solid_counts) : option Q :=
  if 0 <? total_classes c then
    if negb (total_classes c =? 0) then
      ratio <- fdiv (classes_with_inheritance c) (total_classes c) ;;
      Some (Qmin 1 ratio)
    else Some 0%Q
  else Some 1%Q.

Definition isp_score (c : solid_counts) : option Q :=
  if 0 <? total_interfaces c then
    avg_interface_methods <-
      fdiv (interface_methods c) (total_interfaces c) ;;
    Some (degrade avg_interface_methods)
  else Some 1%Q.

Definition dip_score (c : solid_counts) (total_imports : nat) : option Q :=
  if negb (total_imports =? 0)
  then fdiv (uses_abstract_in_imports c) total_imports
  else Some 0%Q.

Record SolidScores : Type := mkSolidScores {
  single_responsibility : Q;
  open_closed : Q;
  interface_segregation : Q;
  dependency_inversion : Q;
  liskov_substitution : Q
}.

(** [evaluate_solid(files)]; [None] would be an uncaught exception. *)
Definition evaluate_solid (fs : filesystem) (files : list FileMetrics)
  : option SolidScores :=
  let c := solid_totals fs files in
  srp <- srp_score c ;;
  ocp <- ocp_score c ;;
  isp <- isp_score c ;;
  dip <- dip_score c (import_total fs files) ;;
  Some (mkSolidScores (round3 srp) (round3 ocp) (round3 isp) (round3 dip)
                      (1 # 2)).

(** ** evaluate_functional *)

(** [^[^#\n]*=], MULTILINE *)
Definition assignment_pattern : regex :=
  seqs [ Bol true; Star (none_of ["#"%char; newline]); chr "=" ].

(** [\b(print|console\.log|System\.out\.println)\b] *)
Definition print_pattern : regex :=
  seqs [ WordBoundary;
         Group (alts [lit "print"; lit "console.log";
                      lit "System.out.println"]);
         WordBoundary ].

(** [\blambda\b|=>] *)
Definition lambda_pattern : regex :=
  Alt (seqs [WordBoundary; lit "lambda"; WordBoundary]) (lit "=>").

(** [\b(map|filter|reduce|fold|forEach)\b] *)
Definition hof_pattern : regex :=
  seqs [ WordBoundary;
         Group (alts [lit "map"; lit "filter"; lit "reduce"; lit "fold";
                      lit "forEach"]);
         WordBoundary ].

(** [\b(const|final|immutable)\b], IGNORECASE *)
Definition immutable_keywords : regex :=
  seqs [ WordBoundary;
         Group (alts [lit_i "const"; lit_i "final"; lit_i "immutable"]);
         WordBoundary ].

(** The accumulators of the loop of [evaluate_functional]. *)
Record functional_counts : Type := mkFunctionalCounts {
  pure_functions : nat;
  higher_order_count : nat;
  immutable_count : nat;
  total_assignments : nat
}.

(** The body of [for fm in files]; a file that cannot be read is
    skipped by [continue]. *)
Definition functional_step (fs : filesystem) (acc : functional_counts)
           (fm : FileMetrics) : functional_counts :=
  match read_text fs (path fm) with
  | None => acc
  | Some text =>
      let assignments :=
        total_assignments acc
        + List.length (findall assignment_pattern text) in
      let pure :=
        if 0 <? num_functions fm then
          if (assignments =? 0) && negb (re_search print_pattern text)
          then pure_functions acc + num_functions fm
          else pure_functions acc
        else pure_functions acc in
      mkFunctionalCounts
        pure
        (higher_order_count acc
         + List.length (findall lambda_pattern text)
         + List.length (findall hof_pattern text))
        (immutable_count acc
         + List.length (findall immutable_keywords text))
        assignments
  end.

Definition functional_totals (fs : filesystem) (files : list FileMetrics)
  : functional_counts :=
  fold_left (functional_step fs) files (mkFunctionalCounts 0 0 0 0).

(** [sum(fm.num_functions for fm in files)] *)
Definition sum_functions (files : list FileMetrics) : nat :=
  fold_left (fun n fm => n + num_functions fm) files 0.

Record FunctionalScores : Type := mkFunctionalScores {
  purity : Q;
  higher_order_usage : Q;
  immutability : Q
}.

Definition purity_score (c : functional_counts) (total : nat) : option Q :=
  if negb (total =? 0) then fdiv (pure_functions c) total
  else Some 0%Q.

Definition hof_score (c : functional_counts) (total : nat) : option Q :=
  ratio <- fdiv (higher_order_count c) (Nat.max 1 total) ;;
  Some (Qmin 1 ratio).

Definition immutability_score (c : functional_counts) : option Q :=
  ratio <- fdiv (immutable_count c)
                (Nat.max 1 (total_assignments c + 1)) ;;
  Some (Qmin 1 ratio).

(** [evaluate_functional(files)]; [None] would be an uncaught
    exception. *)
Definition evaluate_functional (fs : filesystem) (files : list FileMetrics)
  : option FunctionalScores :=
  let total := sum_functions files in
  let c := functional_totals fs files in
  p <- purity_score c total ;;
  h <- hof_score c total ;;
  i <- immutability_score c ;;
  Some (mkFunctionalScores (round3 p) (round3 h) (round3 i)).

End Principles.

(* ================================================================== *)
(** * Specification-side notions and sample runs *)
(* ================================================================== *)

Import PyStr Re Metrics Principles.

(** [s] ends with [suffix]. *)
Definition has_suffix (s suffix : string) : Prop :=
  exists front, s = String.append front suffix.

(** The filtering policy of the walker, as the specification words it. *)
Definition included (extensions : option (list string)) (fname : string)
  : Prop :=
  match extensions with
  | Some exts => exists ext, In ext exts /\ has_suffix fname ext
  | None => detect_language fname <> "unknown"
  end.

(** A text from its lines, each ended by a line feed. *)
Fixpoint text_of_lines (ls : list string) : string :=
  match ls with
  | [] => EmptyString
  | l :: ls' => String.append l (String newline (text_of_lines ls'))
  end.

(** A file system with one readable file. *)
Definition single_file (p text : string) : filesystem :=
  fun q => if String.eqb q p then Holds (encode text) else Unopenable.

(** The records of a list of scanned files, as the scanner gives them. *)
Fixpoint scan_all (fs : filesystem) (paths : list string)
  : list FileMetrics :=
  match paths with
  | [] => []
  | p :: paths' =>
      match analyse_file fs p with
      | Some m => m :: scan_all fs paths'
      | None => scan_all fs paths'
      end
  end.

(** A JavaScript file whose only decision keyword sits next to an
    operator written between blanks. *)
Definition guard_js : string :=
  text_of_lines [ "function pick(a, b) {";
                  "  if (a && b) {";
                  "    return a;";
                  "  }";
                  "  return b;";
                  "}" ].

(** A Python file without classes. *)
Definition helper_py : string :=
  text_of_lines [ "def helper(x):";
                  "    return x" ].

(** The three declaration counters never overtake the line counter. *)
Definition counters_bounded (st : scan_state) : Prop :=
  num_functions (metrics st) <= line_count (metrics st)
  /\ num_classes (metrics st) <= line_count (metrics st)
  /\ num_interfaces (metrics st) <= line_count (metrics st).

(** What one file name of the directory [root] adds to the result of the
    walker. *)
Definition scanned (fs : filesystem) (extensions : option (list string))
           (root fname : string) : list FileMetrics :=
  if selected extensions fname then
    match analyse_file fs (path_join root fname) with
    | Some m => [m]
    | None => []
    end
  else [].

(** A directory with a file that cannot be opened and a file whose bytes
    do not all decode. *)
Definition damaged_fs : filesystem :=
  fun q =>
    if String.eqb q "proj/blob.py"
    then Holds [Undecodable; Decoded "x"; Undecodable; Decoded newline]
    else Unopenable.

Definition damaged_tree : dirtree :=
  Dir "proj" [] ["locked.py"; "blob.py"].

Definition mixed_tree : dirtree :=
  Dir "proj" [] ["a.py"; "b.txt"].

(** ** Literal keywords *)

(** What is left of [s] after its prefix [p], if [s] starts with [p]. *)
Fixpoint strip_prefix (p s : string) : option string :=
  match p, s with
  | EmptyString, _ => Some s
  | String _ _, EmptyString => None
  | String a p', String b s' =>
      if (b =? a)%char then strip_prefix p' s' else None
  end.

(** The character just before the position reached after reading [p]. *)
Fixpoint last_char (p : string) (prev : option ascii) : option ascii :=
  match p with
  | EmptyString => prev
  | String c p' => last_char p' (Some c)
  end.

(** [kw] stands in [line] with a word character right before it and
    another right after it. *)
Definition glued_between_words (kw line : string) : Prop :=
  exists front a b back,
    line = String.append front (String a (String.append kw (String b back)))
    /\ isword a = true /\ isword b = true.

(** A keyword that neither starts nor ends with a word character. *)
Definition operator_like (kw : string) : Prop :=
  exists c kw', kw = String c kw'
                /\ isword c = false
                /\ (exists d, last_char kw None = Some d /\ isword d = false).

(** ** Run-wide totals, as sums over the records *)

Definition class_total (files : list FileMetrics) : nat :=
  list_sum (map num_classes files).

Definition function_total (files : list FileMetrics) : nat :=
  list_sum (map num_functions files).

Definition interface_total (files : list FileMetrics) : nat :=
  list_sum (map num_interfaces files).

(** The inheritance matches found in the text of one record's file. *)
Definition inheritance_matches (fs : filesystem) (fm : FileMetrics) : nat :=
  List.length (findall inheritance_pattern (text_or_empty fs fm)).

Definition inheritance_total (fs : filesystem) (files : list FileMetrics)
  : nat :=
  list_sum (map (inheritance_matches fs) files).

(** The average number of functions per class of a run. *)
Definition functions_per_class (files : list FileMetrics) : Q :=
  (of_nat (function_total files) / of_nat (class_total files))%Q.

(** ** The purity rule, as the specification words it *)

(** The assignment-like lines of one record's file; a file that cannot be
    reread adds none. *)
Definition assignment_lines (fs : filesystem) (fm : FileMetrics) : nat :=
  match read_text fs (path fm) with
  | Some text => List.length (findall assignment_pattern text)
  | None => 0
  end.

(** The run-wide assignment count at the moment the file at position [i]
    is processed: the lines of the files up to and including it. *)
Definition assignments_so_far (fs : filesystem) (files : list FileMetrics)
           (i : nat) : nat :=
  list_sum (map (assignment_lines fs) (firstn (S i) files)).

(** The text of the file holds no call of print, console.log or
    System.out.println; [false] when the file cannot be reread. *)
Definition reread_without_print (fs : filesystem) (fm : FileMetrics) : bool :=
  match read_text fs (path fm) with
  | Some text => negb (re_search print_pattern text)
  | None => false
  end.

(** The functions of the file at position [i] count as pure. *)
Definition counted_pure (fs : filesystem) (files : list FileMetrics)
           (i : nat) : bool :=
  match nth_error files i with
  | Some fm =>
      (assignments_so_far fs files i =? 0) && reread_without_print fs fm
  | None => false
  end.

(** What the file at position [i] adds to the pure-function count. *)
Definition pure_share (fs : filesystem) (files : list FileMetrics)
           (i : nat) : nat :=
  match nth_error files i with
  | Some fm => if counted_pure fs files i then num_functions fm else 0
  | None => 0
  end.

Definition pure_total (fs : filesystem) (files : list FileMetrics) : nat :=
  list_sum (map (pure_share fs files) (seq 0 (List.length files))).

(** A score lies in the closed interval from 0 to 1. *)
Definition in_unit (q : Q) : Prop := (0 <= q /\ q <= 1)%Q.

(** ** Sample runs *)

(** A Java file with three classes, one of which extends another. *)
Definition shapes_java : string :=
  text_of_lines [ "class Circle extends Shape {"; "}";
                  "class Shape {"; "}";
                  "class Canvas {"; "}" ].

Definition shapes_fs : filesystem := single_file "proj/Shapes.java" shapes_java.
Definition shapes_run : list FileMetrics :=
  scan_all shapes_fs ["proj/Shapes.java"].

(** A Java file with two classes, one of which extends the other. *)
Definition pair_java : string :=
  text_of_lines [ "class A extends B {"; "}"; "class B {"; "}" ].

Definition pair_fs : filesystem := single_file "proj/Pair.java" pair_java.
Definition pair_run : list FileMetrics := scan_all pair_fs ["proj/Pair.java"].

Definition helper_fs : filesystem := single_file "proj/helper.py" helper_py.
Definition helper_run : list FileMetrics :=
  scan_all helper_fs ["proj/helper.py"].

(** A Python file with three classes and sixteen methods. *)
Definition services_py : string :=
  text_of_lines
    ("class Reader:" :: repeat "    def step(self):" 6
     ++ "class Writer:" :: repeat "    def step(self):" 5
     ++ "class Mixer:" :: repeat "    def step(self):" 5).

Definition services_fs : filesystem :=
  single_file "proj/services.py" services_py.
Definition services_run : list FileMetrics :=
  scan_all services_fs ["proj/services.py"].

(** Two Python files: a pure helper, and one that prints. *)
Definition report_py : string :=
  text_of_lines [ "def report(x):";
                  "    print(x)" ].

Definition report_fs : filesystem :=
  fun q =>
    if String.eqb q "proj/helper.py" then Holds (encode helper_py)
    else if String.eqb q "proj/report.py" then Holds (encode report_py)
    else Unopenable.

Definition report_run : list FileMetrics :=
  scan_all report_fs ["proj/helper.py"; "proj/report.py"].

(** A record whose file has vanished since it was scanned. *)
Definition vanished_fs : filesystem := fun _ => Unopenable.

Definition vanished_run : list FileMetrics :=
  [mkFileMetrics "proj/gone.py" 1 0 0 1 Simple 2 0 0 false "python" []].

(** A Python file with two import lines separated by a form feed. *)
Definition paged_py : string :=
  String.append "import abstract_shapes"
                (String form_feed (text_of_lines ["import abstract_ops"])).

Definition paged_fs : filesystem := single_file "proj/paged.py" paged_py.

Definition paged_run : list FileMetrics :=
  analyse_directory paged_fs (Dir "proj" [] ["paged.py"]) "proj" None.

(** ** Further notions for the scanner *)

(** The keywords of [patterns] that [count_patterns] finds in [line]. *)
Definition found_keywords (patterns : list string) (line : string)
  : list string :=
  filter (fun kw => re_search (keyword_regex kw) line) patterns.

(** The record of a file in which nothing was read. *)
Definition blank_record (p : string) : FileMetrics :=
  mkFileMetrics p 0 0 0 1 Simple 0 0 0 false (detect_language p) [].

(** A file whose bytes do not decode at all. *)
Definition damaged_fs_blank : filesystem :=
  fun q =>
    if String.eqb q "proj/blob.py" then Holds [Undecodable; Undecodable]
    else Unopenable.

(** The first character of [s] is a word character. *)
Definition word_first (s : string) : bool :=
  match s with String c _ => isword c | EmptyString => false end.

(** The last character of [s] is a word character. *)
Definition word_last (s : string) : bool :=
  match last_char s None with Some c => isword c | None => false end.

(** [kw] stands in [line] as a whole word: no word character touches it
    on either side. *)
Definition whole_word_in (kw line : string) : Prop :=
  exists front back,
    line = String.append front (String.append kw back)
    /\ word_last front = false /\ word_first back = false.

(** The whitespace character a line begins with, if it begins with one. *)
Definition leading_space (line : string) : option ascii :=
  match line with
  | String c _ => if isspace c then Some c else None
  | EmptyString => None
  end.

(** Two of the lines begin with different whitespace characters. *)
Definition indents_differ (lines : list string) : Prop :=
  exists l1 l2 a b,
    In l1 lines /\ In l2 lines
    /\ leading_space l1 = Some a /\ leading_space l2 = Some b /\ a <> b.

(** A Python file with a blank line and a line indented with blanks. *)
Definition spaced_py : string :=
  text_of_lines [ "def helper(x):"; ""; "    return x" ].

(** ** Further notions for the walker *)

(** [s] holds no ["/"]: it can be the name of a directory entry. *)
Fixpoint no_slash (s : string) : bool :=
  match s with
  | EmptyString => true
  | String c s' => negb (c =? "/")%char && no_slash s'
  end.

(** The extensions the classifier knows. *)
Definition default_extensions : list string := map fst language_table.

(** Opening the file succeeds. *)
Definition openable (fs : filesystem) (p : string) : bool :=
  match fs p with
  | Unopenable => false
  | Holds _ => true
  end.

(** The files the walker visits, each with its directory, in the order of
    the walk. *)
Definition walked_files (root : string) (tree : dirtree)
  : list (string * string) :=
  flat_map (fun entry => map (fun fname => (fst entry, fname)) (snd entry))
           (walk root tree).

(** A tree with hidden files, upper-case names and a sub-directory. *)
Definition varied_tree : dirtree :=
  Dir "proj" [Dir "lib" [] ["util.PY"; "notes.txt"]]
      ["main.py"; ".py"; "page.tpl"].

Definition all_empty_fs : filesystem := fun _ => Holds [].

(** ** Further notions for the evaluators *)

(** A greedy repetition of one character class, by recursion on the
    subject: the longest run first, then shorter ones. *)
Fixpoint star_chr (p : ascii -> bool) (k : mstate -> option mstate)
         (prev : option ascii) (s : string) (g : option string)
  : option mstate :=
  match s with
  | String c s' =>
      if p c then
        match star_chr p k (Some c) s' g with
        | Some res => Some res
        | None => k (MState prev s g)
        end
      else k (MState prev s g)
  | EmptyString => k (MState prev s g)
  end.

(** What follows the leading whitespace in [import_pattern]. *)
Definition import_keyword : regex :=
  Seq (Group (alts [lit "import"; lit "using"; lit "require"])) WordBoundary.

(** [s] starts with one of the three keywords, and no word character
    follows the keyword. *)
Definition starts_with_import_keyword (s : string) : bool :=
  existsb (fun kw =>
             match strip_prefix kw s with
             | Some s' => negb (word_first s')
             | None => false
             end)
          ["import"; "using"; "require"].

Definition is_some {A : Type} (o : option A) : bool :=
  match o with Some _ => true | None => false end.

(** The only line boundary in [s] is the line feed. *)
Fixpoint lf_only (s : string) : bool :=
  match s with
  | EmptyString => true
  | String c s' =>
      (negb (is_line_boundary c) || (c =? newline)%char) && lf_only s'
  end.

(** The only line boundaries in [s], a text of characters
    U+0000..U+00FF, are the line feed and the carriage return: no VT, FF,
    FS, GS, RS or NEL. *)
Fixpoint common_breaks_only (s : string) : bool :=
  match s with
  | EmptyString => true
  | String c s' =>
      (negb (is_line_boundary c) || (c =? newline)%char
       || (c =? carriage_return)%char)
      && common_breaks_only s'
  end.

(** The import-like lines of a text read line by line. *)
Definition import_lines (text : string) : nat :=
  List.length (filter (re_match import_pattern) (readlines text)).

(** A file with Windows line ends and two imports. *)
Definition windows_py : string :=
  String.append "import abstract_shapes"
    (String carriage_return
       (String newline
          (String.append "import os"
             (String carriage_return (String newline EmptyString))))).

Definition windows_fs : filesystem := single_file "proj/win.py" windows_py.

Definition windows_run : list FileMetrics :=
  scan_all windows_fs ["proj/win.py"].

(** A run that starts with a file holding an assignment line. *)
Definition assign_py : string :=
  text_of_lines [ "limit = 10"; "def clamp(x):"; "    return min(x, limit)" ].

Definition report_fs_assign : filesystem :=
  fun q =>
    if String.eqb q "proj/assign.py" then Holds (encode assign_py)
    else if String.eqb q "proj/helper.py" then Holds (encode helper_py)
    else Unopenable.

Definition assign_record : FileMetrics :=
  scan_lines "proj/assign.py" (readlines assign_py).

(** A record with two classes whose file has vanished. *)
Definition vanished_with_class : list FileMetrics :=
  [mkFileMetrics "proj/gone.py" 3 2 1 1 Simple 9 0 0 false "python" []].

(* ------------------------------------------------------------------ *)
(** ** main.py: the statistics of the summary *)

Module Main.

(** The numbers [human_readable_summary] computes from the records
    (its local variables); how it lays them out as text is not
    modelled. *)
Record summary_stats : Type := mkSummary {
  total_functions : nat;
  total_classes : nat;
  total_complexity : nat;
  total_files : nat;
  total_lines : nat;
  total_comments : nat;
  total_long_lines : nat;
  mixed_indent_files : nat;
  avg_complexity : Q;
  avg_functions_per_file : Q;
  avg_classes_per_file : Q;
  comment_ratio : Q;
  long_line_ratio : Q
}.

(** [(a / b) if b else 0] *)
Definition ratio_or_zero (a b : nat) : option Q :=
  if negb (b =? 0) then truediv a b else Some 0%Q.

Definition summary_statistics (files : list FileMetrics)
  : option summary_stats :=
  let total_functions := list_sum (map num_functions files) in
  let total_classes := list_sum (map num_classes files) in
  let total_complexity := list_sum (map cyclomatic_complexity files) in
  let total_files := List.length files in
  let total_lines := list_sum (map line_count files) in
  let total_comments := list_sum (map comment_count files) in
  let total_long_lines := list_sum (map long_line_count files) in
  let mixed_indent_files := List.length (filter mixed_indent files) in
  avg_complexity <- ratio_or_zero total_complexity total_files ;;
  avg_functions_per_file <- ratio_or_zero total_functions total_files ;;
  avg_classes_per_file <- ratio_or_zero total_classes total_files ;;
  comment_ratio <- ratio_or_zero total_comments total_lines ;;
  long_line_ratio <- ratio_or_zero total_long_lines total_lines ;;
  Some (mkSummary total_functions total_classes total_complexity
                  total_files total_lines total_comments total_long_lines
                  mixed_indent_files avg_complexity avg_functions_per_file
                  avg_classes_per_file comment_ratio long_line_ratio).

End Main.

(** The records come from the scanner. *)
Definition scanned_records (fs : filesystem) (files : list FileMetrics)
  : Prop :=
  Forall (fun m => exists p, analyse_file fs p = Some m) files.

(** Every character of [s] is in the class [p]. *)
Fixpoint all_chars (p : ascii -> bool) (s : string) : bool :=
  match s with
  | EmptyString => true
  | String c s' => p c && all_chars p s'
  end.

(** The optional modifier of the function pattern. *)
Definition modifier_group : regex :=
  Group (alts [ lit "def"; lit "function"; lit "func";
                seqs [lit "public"; plus space; lit "static"];
                seqs [lit "private"; plus space; lit "static"];
                lit "public"; lit "private"; lit "protected";
                lit "static"; lit "final" ]).

(** A line of the shape: blanks, a word, an opening parenthesis, text
    without a line feed, a closing parenthesis, anything. *)
Definition call_like (ws w inner tail : string) : string :=
  String.append ws
    (String.append w
       (String "(" (String.append inner (String ")" tail)))).

(** The helper file and the file with an assignment line, scanned. *)
Definition helper_record : FileMetrics :=
  scan_lines "proj/helper.py" (readlines helper_py).

(* ================================================================== *)
(** * Properties of the scanner *)
(* ================================================================== *)

Section ScanInvariants.

(** An invariant of a left fold is kept by every step. *)
Lemma fold_left_invariant {A B : Type} (P : A -> Prop) (f : A -> B -> A) :
  (forall a b, P a -> P (f a b)) ->
  forall l a, P a -> P (fold_left f l a).
Proof.
  intros step l.
  induction l as [| b l IH]; intros a Ha; simpl; auto.
Qed.

Lemma scan_line_path st line :
  path (metrics (scan_line st line)) = path (metrics st).
Proof.
  unfold scan_line.
  destruct (if String.eqb (language (metrics st)) "python"
            then indent_step (indent_char st) (mixed_indent (metrics st)) line
            else (indent_char st, mixed_indent (metrics st))) as [i mx].
  reflexivity.
Qed.

Lemma scan_line_line_count st line :
  line_count (metrics (scan_line st line)) = line_count (metrics st) + 1.
Proof.
  unfold scan_line.
  destruct (if String.eqb (language (metrics st)) "python"
            then indent_step (indent_char st) (mixed_indent (metrics st)) line
            else (indent_char st, mixed_indent (metrics st))) as [i mx].
  reflexivity.
Qed.

Lemma scan_line_functions st line :
  num_functions (metrics (scan_line st line))
  = num_functions (metrics st)
    + (if any_match function_patterns line then 1 else 0).
Proof.
  unfold scan_line.
  destruct (if String.eqb (language (metrics st)) "python"
            then indent_step (indent_char st) (mixed_indent (metrics st)) line
            else (indent_char st, mixed_indent (metrics st))) as [i mx].
  cbn [metrics set_counts num_functions].
  destruct (any_match function_patterns line); lia.
Qed.

Lemma scan_line_classes st line :
  num_classes (metrics (scan_line st line))
  = num_classes (metrics st)
    + (if any_match class_patterns line then 1 else 0).
Proof.
  unfold scan_line.
  destruct (if String.eqb (language (metrics st)) "python"
            then indent_step (indent_char st) (mixed_indent (metrics st)) line
            else (indent_char st, mixed_indent (metrics st))) as [i mx].
  cbn [metrics set_counts num_classes].
  destruct (any_match class_patterns line); lia.
Qed.

Lemma scan_line_interfaces st line :
  num_interfaces (metrics (scan_line st line))
  = num_interfaces (metrics st)
    + (if any_match interface_patterns line then 1 else 0).
Proof.
  unfold scan_line.
  destruct (if String.eqb (language (metrics st)) "python"
            then indent_step (indent_char st) (mixed_indent (metrics st)) line
            else (indent_char st, mixed_indent (metrics st))) as [i mx].
  cbn [metrics set_counts num_interfaces].
  destruct (any_match interface_patterns line); lia.
Qed.

Lemma scan_line_keeps_bounds st line :
  counters_bounded st -> counters_bounded (scan_line st line).
Proof.
  unfold counters_bounded.
  rewrite scan_line_line_count, scan_line_functions,
    scan_line_classes, scan_line_interfaces.
  intros (Hf & Hc & Hi).
  destruct (any_match function_patterns line),
    (any_match class_patterns line),
    (any_match interface_patterns line); lia.
Qed.

Lemma scan_lines_path p lines : path (scan_lines p lines) = p.
Proof.
  unfold scan_lines. cbn [with_complexity path].
  apply (fold_left_invariant (fun st => path (metrics st) = p)).
  - intros st line H. now rewrite scan_line_path.
  - reflexivity.
Qed.

Lemma scan_lines_category p lines :
  complexity_category (scan_lines p lines)
  = categorise (cyclomatic_complexity (scan_lines p lines)).
Proof. reflexivity. Qed.

Lemma analyse_file_path fs p m : analyse_file fs p = Some m -> path m = p.
Proof.
  unfold analyse_file.
  destruct (read_text fs p) as [text |]; [| discriminate].
  intros [= <-]. apply scan_lines_path.
Qed.

Lemma analyse_file_none fs p :
  analyse_file fs p = None <-> fs p = Unopenable.
Proof.
  unfold analyse_file, read_text.
  destruct (fs p); split; congruence.
Qed.

End ScanInvariants.

(** C10.  For every record the scanner produces, the numbers of functions,
    of classes and of interfaces are each at most the number of lines:
    one scanned line adds one to the line counter and at most one to each
    of the three declaration counters. *)
Theorem declaration_counts_at_most_lines fs p m :
  analyse_file fs p = Some m ->
  num_functions m <= line_count m
  /\ num_classes m <= line_count m
  /\ num_interfaces m <= line_count m.
Proof.
  unfold analyse_file.
  destruct (read_text fs p) as [text |]; [| discriminate].
  intros [= <-].
  unfold scan_lines.
  cbn [with_complexity num_functions num_classes num_interfaces line_count].
  apply (fold_left_invariant counters_bounded).
  - intros st line. apply scan_line_keeps_bounds.
  - unfold counters_bounded. cbn. lia.
Qed.

Lemma declaration_counts_at_most_lines_witness :
  exists m,
    analyse_file (single_file "src/guard.js" guard_js) "src/guard.js" = Some m
    /\ num_functions m = 2
    /\ line_count m = 6
    /\ num_functions m <= line_count m
    /\ num_classes m <= line_count m
    /\ num_interfaces m <= line_count m.
Proof.
  eexists.
  split; [vm_compute; reflexivity |].
  split; [reflexivity |].
  split; [reflexivity |].
  apply (declaration_counts_at_most_lines
           (single_file "src/guard.js" guard_js) "src/guard.js").
  vm_compute; reflexivity.
Defined.

(** C4.  The category of a record is a function of its final complexity
    alone; that function maps 1 and 10 to Simple, 11 and 20 to Moderate,
    21 and 50 to Complex, 51 and everything above to VeryHigh, and it
    never goes down when the complexity goes up. *)
Theorem category_is_monotone_step_function :
  (forall fs p m,
      analyse_file fs p = Some m ->
      complexity_category m = categorise (cyclomatic_complexity m))
  /\ categorise 1 = Simple /\ categorise 10 = Simple
  /\ categorise 11 = Moderate /\ categorise 20 = Moderate
  /\ categorise 21 = Complex /\ categorise 50 = Complex
  /\ (forall c, 51 <= c -> categorise c = VeryHigh)
  /\ (forall c1 c2,
         c1 <= c2 ->
         category_rank (categorise c1) <= category_rank (categorise c2)).
Proof.
  split.
  { intros fs p m. unfold analyse_file.
    destruct (read_text fs p) as [text |]; [| discriminate].
    intros [= <-]. apply scan_lines_category. }
  repeat (split; [reflexivity |]).
  split.
  - intros c Hc. unfold categorise.
    destruct (Nat.leb_spec c 10); [lia |].
    destruct (Nat.leb_spec c 20); [lia |].
    destruct (Nat.leb_spec c 50); [lia | reflexivity].
  - intros c1 c2 Hle. unfold categorise.
    destruct (Nat.leb_spec c1 10), (Nat.leb_spec c2 10),
      (Nat.leb_spec c1 20), (Nat.leb_spec c2 20),
      (Nat.leb_spec c1 50), (Nat.leb_spec c2 50); cbn; lia.
Qed.

Lemma category_is_monotone_step_function_witness :
  exists m,
    analyse_file (single_file "src/guard.js" guard_js) "src/guard.js" = Some m
    /\ cyclomatic_complexity m = 2
    /\ complexity_category m = categorise (cyclomatic_complexity m)
    /\ categorise 60 = VeryHigh
    /\ category_rank (categorise 10) <= category_rank (categorise 11).
Proof.
  destruct category_is_monotone_step_function
    as (Hrec & _ & _ & _ & _ & _ & _ & Hhigh & Hmono).
  eexists.
  split; [vm_compute; reflexivity |].
  split; [reflexivity |].
  split.
  { apply (Hrec (single_file "src/guard.js" guard_js) "src/guard.js").
    vm_compute; reflexivity. }
  split.
  { apply Hhigh. lia. }
  apply Hmono. lia.
Defined.

(** C8.  The comment ratio and the long-line ratio of a record are 0 when
    its line count is 0 and the quotient of the count by the line count
    otherwise; the test on the line count comes first, so neither
    property can raise ZeroDivisionError. *)
Theorem ratios_are_guarded_quotients m :
  (line_count m = 0 ->
   comment_ratio m = Some 0%Q /\ long_line_ratio m = Some 0%Q)
  /\ (line_count m <> 0 ->
      exists qc ql,
        comment_ratio m = Some qc /\ long_line_ratio m = Some ql
        /\ (qc == of_nat (comment_count m) / of_nat (line_count m))%Q
        /\ (ql == of_nat (long_line_count m) / of_nat (line_count m))%Q)
  /\ comment_ratio m <> None
  /\ long_line_ratio m <> None.
Proof.
  unfold comment_ratio, long_line_ratio, truediv.
  destruct (line_count m) as [| n] eqn:Hn; cbn [Nat.eqb].
  - repeat split; try congruence.
  - split; [intros H; discriminate |].
    split; [| split; discriminate].
    intros _. do 2 eexists.
    split; [reflexivity |]. split; [reflexivity |].
    assert (Hpos : inject_Z (Z.of_nat (S n)) == Z.pos (Pos.of_nat (S n)) # 1).
    { unfold inject_Z. now rewrite <- Znat.positive_nat_Z,
        Nat2Pos.id by discriminate. }
    unfold of_nat.
    split.
    + rewrite Hpos, (Qmake_Qdiv (Z.of_nat (comment_count m))). reflexivity.
    + rewrite Hpos, (Qmake_Qdiv (Z.of_nat (long_line_count m))). reflexivity.
Qed.

Lemma ratios_are_guarded_quotients_witness :
  exists m qc,
    analyse_file (single_file "src/guard.js" guard_js) "src/guard.js" = Some m
    /\ line_count m <> 0
    /\ comment_ratio m = Some qc
    /\ (qc == of_nat (comment_count m) / of_nat (line_count m))%Q
    /\ comment_ratio (new_metrics "empty.py") = Some 0%Q.
Proof.
  exists (scan_lines "src/guard.js"
            (readlines (universal_newlines (decode_ignore (encode guard_js))))).
  destruct (ratios_are_guarded_quotients
              (scan_lines "src/guard.js"
                 (readlines
                    (universal_newlines (decode_ignore (encode guard_js))))))
    as (_ & Hquot & _).
  destruct Hquot as (qc & ql & Hc & _ & Hqc & _).
  { vm_compute. discriminate. }
  exists qc.
  split; [vm_compute; reflexivity |].
  split; [vm_compute; discriminate |].
  split; [exact Hc |].
  split; [exact Hqc |].
  apply (ratios_are_guarded_quotients (new_metrics "empty.py")).
  reflexivity.
Defined.

(** C9.  The scanner gives no record, and raises nothing, for a file that
    cannot be opened; it gives a record for every file that can, whatever
    its bytes, since what does not decode is dropped; and no record in the
    result of the walker belongs to a file that cannot be opened. *)
Theorem unreadable_files_are_skipped fs :
  (forall p, fs p = Unopenable -> analyse_file fs p = None)
  /\ (forall p raw,
         fs p = Holds raw ->
         exists m, analyse_file fs p = Some m /\ path m = p)
  /\ (forall tree root extensions m,
         In m (analyse_directory fs tree root extensions) ->
         fs (path m) <> Unopenable).
Proof.
  split; [| split].
  - intros p Hp. now apply analyse_file_none.
  - intros p raw Hp.
    destruct (analyse_file fs p) as [m |] eqn:Hm.
    + exists m. split; [reflexivity |]. now apply analyse_file_path in Hm.
    + apply analyse_file_none in Hm. congruence.
  - intros tree root extensions m Hin.
    unfold analyse_directory in Hin.
    revert Hin.
    apply (fold_left_invariant
             (fun results => In m results -> fs (path m) <> Unopenable)
             (fun results entry =>
                analyse_files_in fs extensions (fst entry) (snd entry) results)).
    + intros results entry IH. unfold analyse_files_in.
      apply (fold_left_invariant
               (fun results => In m results -> fs (path m) <> Unopenable)).
      * intros acc fname IHacc.
        destruct (selected extensions fname); [| exact IHacc].
        destruct (analyse_file fs (path_join (fst entry) fname))
          as [m' |] eqn:Hm'; [| exact IHacc].
        intros Hin. apply in_app_or in Hin. destruct Hin as [Hin | Hin].
        -- now apply IHacc.
        -- destruct Hin as [<- | []].
           rewrite (analyse_file_path _ _ _ Hm').
           intros Hno. apply analyse_file_none in Hno. congruence.
      * exact IH.
    + intros [].
Qed.

Lemma unreadable_files_are_skipped_witness :
  analyse_file damaged_fs "proj/locked.py" = None
  /\ (exists m, analyse_file damaged_fs "proj/blob.py" = Some m
                /\ path m = "proj/blob.py")
  /\ List.map path (analyse_directory damaged_fs damaged_tree "proj" None)
     = ["proj/blob.py"]
  /\ (forall m,
         In m (analyse_directory damaged_fs damaged_tree "proj" None) ->
         damaged_fs (path m) <> Unopenable).
Proof.
  destruct (unreadable_files_are_skipped damaged_fs) as (Hnone & Hsome & Hdir).
  split; [apply Hnone; reflexivity |].
  split; [eapply Hsome; reflexivity |].
  split; [vm_compute; reflexivity |].
  apply Hdir.
Defined.

(* ================================================================== *)
(** * Properties of the walker *)
(* ================================================================== *)

Section Suffixes.

Lemma append_length s t :
  String.length (String.append s t) = String.length s + String.length t.
Proof. induction s as [| c s IH]; simpl; [reflexivity | now rewrite IH]. Qed.

Lemma substring_whole s : substring 0 (String.length s) s = s.
Proof. induction s as [| c s IH]; simpl; [reflexivity | now rewrite IH]. Qed.

Lemma substring_past_front front s n :
  substring (String.length front) n (String.append front s)
  = substring 0 n s.
Proof. induction front as [| c front IH]; simpl; [reflexivity | exact IH]. Qed.

Lemma substring_split s :
  forall n, n <= String.length s ->
            s = String.append (substring 0 n s)
                              (substring n (String.length s - n) s).
Proof.
  induction s as [| c s IH]; intros n Hn.
  - destruct n; reflexivity.
  - destruct n as [| n].
    + cbn [substring String.append]. cbn [String.length Nat.sub].
      now rewrite substring_whole.
    + cbn [String.length] in *.
      cbn [substring String.append Nat.sub].
      f_equal. apply IH. lia.
Qed.

(** [str.endswith] is the suffix relation. *)
Lemma endswith_spec s suffix :
  endswith s suffix = true <-> has_suffix s suffix.
Proof.
  unfold endswith, has_suffix. rewrite andb_true_iff, Nat.leb_le, String.eqb_eq.
  split.
  - intros [Hlen Hsub].
    exists (substring 0 (String.length s - String.length suffix) s).
    assert (Hsplit := substring_split s
                        (String.length s - String.length suffix)
                        (Nat.le_sub_l _ _)).
    replace (String.length s - (String.length s - String.length suffix))
      with (String.length suffix) in Hsplit by lia.
    now rewrite Hsub in Hsplit.
  - intros [front ->].
    rewrite append_length. split; [lia |].
    replace (String.length front + String.length suffix
             - String.length suffix) with (String.length front) by lia.
    rewrite substring_past_front. apply substring_whole.
Qed.

Lemma selected_spec extensions fname :
  selected extensions fname = true <-> included extensions fname.
Proof.
  unfold selected, included.
  destruct extensions as [exts |].
  - rewrite existsb_exists.
    split; intros (ext & Hin & H); exists ext; split; auto;
      now apply endswith_spec.
  - rewrite negb_true_iff. apply String.eqb_neq.
Qed.

End Suffixes.

Section WalkerShape.

Variable fs : filesystem.
Variable extensions : option (list string).

Lemma analyse_files_in_flat root files :
  forall results,
    analyse_files_in fs extensions root files results
    = results ++ flat_map (scanned fs extensions root) files.
Proof.
  unfold analyse_files_in.
  induction files as [| fname files IH]; intros results; simpl.
  - now rewrite app_nil_r.
  - rewrite IH. unfold scanned at 2.
    destruct (selected extensions fname); [| reflexivity].
    destruct (analyse_file fs (path_join root fname)).
    + now rewrite <- app_assoc.
    + reflexivity.
Qed.

Lemma analyse_directory_flat tree root :
  analyse_directory fs tree root extensions
  = flat_map (fun entry =>
                flat_map (scanned fs extensions (fst entry)) (snd entry))
             (walk root tree).
Proof.
  unfold analyse_directory.
  rewrite <- (app_nil_l (flat_map _ _)).
  generalize (@nil FileMetrics) as results.
  induction (walk root tree) as [| entry entries IH]; intros results; simpl.
  - now rewrite app_nil_r.
  - rewrite IH, analyse_files_in_flat. now rewrite <- app_assoc.
Qed.

End WalkerShape.

(** C7.  A file name passes the filter of the walker exactly when, an
    extension list being given, the name ends with one of its entries, or,
    no list being given, the classifier knows its language.  The result of
    the walker holds exactly the records the scanner gives for the files
    that pass.  For a directory holding [a.py] and [b.txt] and the list
    [[".py"]] that is one record. *)
Theorem walker_filter_policy :
  (forall extensions fname,
      selected extensions fname = true <-> included extensions fname)
  /\ (forall fs tree root extensions m,
         In m (analyse_directory fs tree root extensions) <->
         exists dir files fname,
           In (dir, files) (walk root tree) /\ In fname files
           /\ included extensions fname
           /\ analyse_file fs (path_join dir fname) = Some m)
  /\ (forall fs root,
         fs (path_join root "a.py") <> Unopenable ->
         List.length (analyse_directory fs mixed_tree root (Some [".py"])) = 1).
Proof.
  split; [exact selected_spec |].
  split.
  - intros fs tree root extensions m.
    rewrite analyse_directory_flat, in_flat_map.
    split.
    + intros ([dir files] & Hwalk & Hin).
      cbn [fst snd] in Hin. apply in_flat_map in Hin.
      destruct Hin as (fname & Hfname & Hm).
      unfold scanned in Hm.
      destruct (selected extensions fname) eqn:Hsel; [| destruct Hm].
      destruct (analyse_file fs (path_join dir fname)) as [m' |] eqn:Hfile;
        [| destruct Hm].
      destruct Hm as [<- | []].
      exists dir, files, fname.
      repeat split; auto. now apply selected_spec.
    + intros (dir & files & fname & Hwalk & Hfname & Hinc & Hfile).
      exists (dir, files). split; [exact Hwalk |].
      cbn [fst snd]. apply in_flat_map. exists fname.
      split; [exact Hfname |].
      unfold scanned. apply selected_spec in Hinc.
      rewrite Hinc, Hfile. now left.
  - intros fs root Hopen.
    rewrite analyse_directory_flat.
    cbn [mixed_tree walk flat_map fst snd app].
    unfold scanned.
    replace (selected (Some [".py"]) "a.py") with true by reflexivity.
    replace (selected (Some [".py"]) "b.txt") with false by reflexivity.
    destruct (analyse_file fs (path_join root "a.py")) eqn:Hfile.
    + reflexivity.
    + apply analyse_file_none in Hfile. contradiction.
Qed.

Lemma walker_filter_policy_witness :
  selected (Some [".tpl"]) "page.tpl" = true
  /\ detect_language "page.tpl" = "unknown"
  /\ (exists m,
         In m (analyse_directory (single_file "proj/a.py" helper_py)
                                 mixed_tree "proj" (Some [".py"])))
  /\ List.length (analyse_directory (single_file "proj/a.py" helper_py)
                                    mixed_tree "proj" (Some [".py"])) = 1.
Proof.
  destruct walker_filter_policy as (Hsel & Hmem & Hone).
  split.
  { apply Hsel. exists ".tpl". split; [now left |]. now exists "page". }
  split; [reflexivity |].
  split.
  { exists (scan_lines "proj/a.py"
              (readlines (universal_newlines (decode_ignore (encode helper_py))))).
    apply Hmem. exists "proj", ["a.py"; "b.txt"], "a.py".
    split; [now left |]. split; [now left |].
    split.
    - exists ".py". split; [now left |]. now exists "a".
    - vm_compute. reflexivity. }
  apply Hone. vm_compute. discriminate.
Defined.

(* ================================================================== *)
(** * Keywords that are not words *)
(* ================================================================== *)

Section OperatorKeywords.

Lemma mstate_eta st : MState (before st) (rest st) (group1 st) = st.
Proof. now destruct st. Qed.

(** Matching a literal is reading it off the subject. *)
Lemma exec_lit kw :
  forall st k,
    exec (lit kw) st k
    = match strip_prefix kw (rest st) with
      | Some s' => k (MState (last_char kw (before st)) s' (group1 st))
      | None => None
      end.
Proof.
  induction kw as [| c kw IH]; intros st k.
  - cbn. now rewrite mstate_eta.
  - destruct kw as [| c2 kw].
    + cbn. destruct (rest st) as [| d s']; [reflexivity |].
      destruct (Ascii.eqb_spec d c) as [-> | _]; reflexivity.
    + change (lit (String c (String c2 kw)))
        with (Seq (chr c) (lit (String c2 kw))).
      cbn [exec chr].
      destruct (rest st) as [| d s'] eqn:Hrest; [reflexivity |].
      cbn [strip_prefix].
      destruct (Ascii.eqb_spec d c) as [-> | _]; [| reflexivity].
      rewrite IH. reflexivity.
Qed.

Lemma strip_prefix_append p :
  forall s s', strip_prefix p s = Some s' -> s = String.append p s'.
Proof.
  induction p as [| a p IH]; intros s s' H.
  - now injection H as <-.
  - destruct s as [| b s]; [discriminate |]. cbn in H.
    destruct (Ascii.eqb_spec b a) as [-> | _]; [| discriminate].
    cbn. f_equal. now apply IH.
Qed.

Lemma last_char_some p c prev :
  last_char (String c p) prev = last_char (String c p) None.
Proof. reflexivity. Qed.

(** One attempt of a keyword pattern succeeds only between two word
    boundaries. *)
Lemma keyword_match_here kw prev s st' :
  match_here (keyword_regex kw) prev s = Some st' ->
  exists s',
    s = String.append kw s'
    /\ at_word_boundary (MState prev s None) = true
    /\ at_word_boundary (MState (last_char kw prev) s' None) = true.
Proof.
  unfold match_here, keyword_regex.
  change (seqs [WordBoundary; lit kw; WordBoundary])
    with (Seq WordBoundary (Seq (lit kw) WordBoundary)).
  cbn [exec].
  destruct (at_word_boundary (MState prev s None)) eqn:Hstart;
    [| discriminate].
  rewrite exec_lit. cbn [rest before group1].
  destruct (strip_prefix kw s) as [s' |] eqn:Hstrip; [| discriminate].
  destruct (at_word_boundary (MState (last_char kw prev) s' None)) eqn:Hend;
    [| discriminate].
  intros _. exists s'. split; [now apply strip_prefix_append | auto].
Qed.

(** For an operator-like keyword that means: glued to a word character on
    each side. *)
Lemma operator_match_here kw prev s st' :
  operator_like kw ->
  match_here (keyword_regex kw) prev s = Some st' ->
  exists a b back,
    prev = Some a /\ s = String.append kw (String b back)
    /\ isword a = true /\ isword b = true.
Proof.
  intros (c & kw' & -> & Hc & d & Hlast & Hd) Hmatch.
  apply keyword_match_here in Hmatch.
  destruct Hmatch as (s' & -> & Hstart & Hend).
  unfold at_word_boundary, word_before, word_after in Hstart, Hend.
  cbn [before rest String.append] in Hstart, Hend.
  rewrite Hc in Hstart.
  rewrite last_char_some, Hlast, Hd in Hend.
  destruct prev as [a |]; [| discriminate].
  destruct s' as [| b back]; [discriminate |].
  exists a, b, back.
  repeat split.
  - now destruct (isword a).
  - now destruct (isword b).
Qed.

(** A search that succeeds has an attempt that succeeds, at the end of
    some front part of the subject. *)
Lemma search_from_attempt r :
  forall s prev st',
    search_from r prev s = Some st' ->
    (match_here r prev s = Some st')
    \/ exists front c s2,
        s = String.append front (String c s2)
        /\ match_here r (Some c) s2 = Some st'.
Proof.
  induction s as [| c s IH]; intros prev st' H; cbn [search_from] in H.
  - destruct (match_here r prev EmptyString); [now left | discriminate].
  - destruct (match_here r prev (String c s)) eqn:Hhere.
    + now left.
    + right. apply IH in H. destruct H as [H | (front & d & s2 & -> & H)].
      * exists EmptyString, c, s. auto.
      * exists (String c front), d, s2. auto.
Qed.

(** An operator-like keyword is found in a line only where it is glued
    between two word characters: [a&&b] yes, [a && b] no. *)
Lemma operator_found_only_between_words kw line :
  operator_like kw ->
  re_search (keyword_regex kw) line = true ->
  glued_between_words kw line.
Proof.
  intros Hop. unfold re_search.
  destruct (search_from (keyword_regex kw) None line) as [st' |] eqn:Hsearch;
    [| discriminate].
  intros _.
  apply search_from_attempt in Hsearch.
  destruct Hsearch as [Hhere | (front & c & s2 & -> & Hhere)];
    apply (operator_match_here _ _ _ _ Hop) in Hhere;
    destruct Hhere as (a & b & back & Hprev & -> & Ha & Hb).
  - discriminate.
  - injection Hprev as ->.
    exists front, a, b, back. auto.
Qed.

Lemma decision_operators_are_operator_like :
  operator_like "&&" /\ operator_like "||" /\ operator_like "?".
Proof.
  repeat split; do 2 eexists;
    (split; [reflexivity |]); (split; [reflexivity |]);
    eexists; split; reflexivity.
Qed.

End OperatorKeywords.

(** C3 (at an input where the code departs from it).  A line whose only
    decision tokens are [if] and an operator [&&] written between blanks
    adds 1 to the complexity, not 2: the search puts a word boundary on
    both sides of every keyword, and there is none between a blank and
    [&&].  The same operator written between two names is counted, and a
    [?] between blanks is not. *)
Theorem operators_between_blanks_are_not_counted :
  count_patterns decision_keywords "  if (a && b) {" = 1
  /\ count_patterns decision_keywords "  if (a&&b) {" = 2
  /\ count_patterns decision_keywords "x = c ? y : z;" = 0
  /\ count_patterns decision_keywords "x = c?y:z;" = 1
  /\ count_patterns decision_keywords "while (p || q) {" = 1
  /\ (exists m,
         analyse_file (single_file "src/guard.js" guard_js) "src/guard.js"
         = Some m
         /\ cyclomatic_complexity m = 2).
Proof.
  repeat (split; [vm_compute; reflexivity |]).
  eexists. split; vm_compute; reflexivity.
Qed.

(* ================================================================== *)
(** * Properties of the SOLID evaluator *)
(* ================================================================== *)

Section Quotients.

Lemma truediv_nonzero a b :
  b <> 0 -> truediv a b = Some (Z.of_nat a # Pos.of_nat b).
Proof. destruct b; [contradiction | reflexivity]. Qed.

(** The fraction built by [truediv] is the quotient of its arguments. *)
Lemma fraction_is_quotient a b :
  b <> 0 -> (Z.of_nat a # Pos.of_nat b == of_nat a / of_nat b)%Q.
Proof.
  intros Hb. unfold of_nat.
  rewrite (Qmake_Qdiv (Z.of_nat a)).
  now rewrite <- Znat.positive_nat_Z, Nat2Pos.id.
Qed.

Lemma round_half_even_wd q q' :
  (q == q')%Q -> round_half_even q = round_half_even q'.
Proof.
  intros H. unfold round_half_even.
  rewrite (Qfloor_comp _ _ H).
  now rewrite H.
Qed.

(** Rounding does not see which fraction stands for a rational. *)
Lemma round3_wd q q' : (q == q')%Q -> round3 q = round3 q'.
Proof.
  intros H. unfold round3.
  rewrite (round_half_even_wd (q * 1000) (q' * 1000)); [reflexivity |].
  now rewrite H.
Qed.

(** Nor does [to_double]. *)
Lemma to_double_wd q q' : (q == q')%Q -> to_double q = to_double q'.
Proof.
  intros H. unfold to_double. now rewrite (Qred_complete _ _ H).
Qed.

Lemma to_double_zero q : (q == 0)%Q -> to_double q = 0%Q.
Proof. intros H. now rewrite (to_double_wd q 0 H). Qed.

Lemma fsub_wd x x' y : (x == x')%Q -> fsub x y = fsub x' y.
Proof. intros H. apply to_double_wd. now rewrite H. Qed.

Lemma degrade_wd q q' : (q == q')%Q -> degrade q = degrade q'.
Proof. intros H. unfold degrade. now rewrite (fsub_wd _ _ 5 H). Qed.

Lemma fdiv_nonzero a b :
  b <> 0 -> fdiv a b = Some (to_double (Z.of_nat a # Pos.of_nat b)).
Proof. intros Hb. unfold fdiv. now rewrite truediv_nonzero. Qed.

(** The double of the fraction is the double of the quotient. *)
Lemma double_of_quotient a b :
  b <> 0 ->
  to_double (Z.of_nat a # Pos.of_nat b) = to_double (of_nat a / of_nat b).
Proof. intros Hb. now apply to_double_wd, fraction_is_quotient. Qed.

End Quotients.

Section SolidTotals.

Variable fs : filesystem.

Lemma list_sum_snoc l n : list_sum (l ++ [n]) = list_sum l + n.
Proof. rewrite list_sum_app. simpl. lia. Qed.

(** The accumulators of the first loop are the sums over the records. *)
Lemma solid_totals_sums files :
  let c := solid_totals fs files in
  total_classes c = class_total files
  /\ total_functions c = function_total files
  /\ total_interfaces c = interface_total files
  /\ classes_with_inheritance c = inheritance_total fs files.
Proof.
  unfold solid_totals, class_total, function_total, interface_total,
    inheritance_total.
  induction files as [| fm files IH] using rev_ind.
  - cbn. auto.
  - rewrite fold_left_app, !map_app. cbn [map].
    rewrite !list_sum_snoc.
    destruct IH as (IHc & IHf & IHi & IHm).
    rewrite <- IHc, <- IHf, <- IHi, <- IHm.
    unfold inheritance_matches. cbn. auto.
Qed.

Lemma srp_score_value c :
  srp_score c
  = Some (if total_classes c =? 0 then 1%Q
          else degrade (to_double (Z.of_nat (total_functions c)
                                   # Pos.of_nat (total_classes c)))).
Proof.
  unfold srp_score, fdiv, truediv.
  destruct (total_classes c); reflexivity.
Qed.

Lemma ocp_score_value c :
  ocp_score c
  = Some (if total_classes c =? 0 then 1%Q
          else Qmin 1 (to_double (Z.of_nat (classes_with_inheritance c)
                                  # Pos.of_nat (total_classes c)))).
Proof.
  unfold ocp_score, fdiv, truediv.
  destruct (total_classes c); reflexivity.
Qed.

Lemma isp_score_value c :
  isp_score c
  = Some (if total_interfaces c =? 0 then 1%Q
          else degrade (to_double (Z.of_nat (interface_methods c)
                                   # Pos.of_nat (total_interfaces c)))).
Proof.
  unfold isp_score, fdiv, truediv.
  destruct (total_interfaces c); reflexivity.
Qed.

Lemma dip_score_value c total_imports :
  dip_score c total_imports
  = Some (if total_imports =? 0 then 0%Q
          else to_double (Z.of_nat (uses_abstract_in_imports c)
                          # Pos.of_nat total_imports)).
Proof.
  unfold dip_score, fdiv, truediv.
  destruct total_imports; reflexivity.
Qed.

(** [evaluate_solid] always returns: every division is guarded. *)
Lemma evaluate_solid_returns files :
  exists srp ocp isp dip,
    srp_score (solid_totals fs files) = Some srp
    /\ ocp_score (solid_totals fs files) = Some ocp
    /\ isp_score (solid_totals fs files) = Some isp
    /\ dip_score (solid_totals fs files) (import_total fs files) = Some dip
    /\ evaluate_solid fs files
       = Some (mkSolidScores (round3 srp) (round3 ocp) (round3 isp)
                             (round3 dip) (1 # 2)).
Proof.
  unfold evaluate_solid.
  rewrite srp_score_value, ocp_score_value, isp_score_value,
    dip_score_value.
  do 4 eexists. repeat split; reflexivity.
Qed.

End SolidTotals.

(** C1, as the code has it.  [evaluate_solid] returns, and its open_closed
    score is 1 when the records have no class at all, and otherwise the
    number of inheritance matches found in the files of the records,
    divided by the number of classes of the records (the double that
    [/] returns), capped at 1 and rounded to three decimals the way
    [round(x, 3)] rounds a double. *)
Theorem open_closed_is_rounded_capped_ratio fs files :
  exists s,
    evaluate_solid fs files = Some s
    /\ (open_closed s
        == if class_total files =? 0 then 1
           else round3 (Qmin 1 (to_double
                                  (of_nat (inheritance_total fs files)
                                   / of_nat (class_total files)))))%Q.
Proof.
  destruct (evaluate_solid_returns fs files)
    as (srp & ocp & isp & dip & _ & Hocp & _ & _ & Heval).
  eexists. split; [exact Heval |].
  cbn [open_closed].
  rewrite ocp_score_value in Hocp. injection Hocp as <-.
  destruct (solid_totals_sums fs files) as (Hc & _ & _ & Hi).
  cbv zeta in Hc, Hi. rewrite Hc, Hi.
  destruct (class_total files =? 0) eqn:Hzero; [reflexivity |].
  rewrite double_of_quotient by now apply Nat.eqb_neq.
  reflexivity.
Qed.

(** C1, where the claim as written fails: a run without classes (the
    scan of one Python file that defines a function and no class) scores
    1, not 0. *)
Lemma open_closed_differs_from_plain_ratio :
  class_total helper_run = 0
  /\ total_classes (solid_totals helper_fs helper_run) = 0
  /\ exists s, evaluate_solid helper_fs helper_run = Some s
               /\ (open_closed s == 1)%Q /\ ~ (open_closed s == 0)%Q.
Proof.
  split; [vm_compute; reflexivity |].
  split; [vm_compute; reflexivity |].
  eexists. split; [vm_compute; reflexivity |].
  split; vm_compute; congruence.
Qed.

(** Three classes and one inheritance match: the score is the double of
    0.333, the quotient rounded to three decimals. *)
Example open_closed_of_shapes :
  class_total shapes_run = 3
  /\ inheritance_total shapes_fs shapes_run = 1
  /\ exists s, evaluate_solid shapes_fs shapes_run = Some s
               /\ (open_closed s == to_double (333 # 1000))%Q
               /\ ~ (open_closed s == Qmin 1 (to_double (1 / 3)))%Q.
Proof.
  split; [vm_compute; reflexivity |].
  split; [vm_compute; reflexivity |].
  eexists. split; [vm_compute; reflexivity |].
  split; vm_compute; congruence.
Qed.

(** The example of the specification: two classes, one inheritance match,
    score 1/2. *)
Example open_closed_of_pair :
  class_total pair_run = 2
  /\ inheritance_total pair_fs pair_run = 1
  /\ exists s, evaluate_solid pair_fs pair_run = Some s
               /\ (open_closed s == 1 # 2)%Q.
Proof.
  split; [vm_compute; reflexivity |].
  split; [vm_compute; reflexivity |].
  eexists. split; vm_compute; reflexivity.
Qed.

(** C5.  [evaluate_solid] returns, and its single_responsibility score
    is 1.0 when the records have no class at all, and otherwise
    [max(0, 1 - max(0, avg - 5) / 10)], computed on doubles and rounded
    to three decimals as every score of the evaluator is, [avg] being
    the number of functions of the records divided by their number of
    classes.  A run of one record with 1 class and 5 functions scores
    1.0, and one with 1 class and 15 functions scores 0.0. *)
Theorem single_responsibility_is_rounded_degradation :
  (forall fs files,
      exists s,
        evaluate_solid fs files = Some s
        /\ (single_responsibility s
            == if class_total files =? 0 then 1
               else
                 let avg := to_double (functions_per_class files) in
                 round3 (Qmax 0 (fsub 1 (fquot (Qmax 0 (fsub avg 5)) 10))))%Q)
  /\ (forall fs fm,
         num_classes fm = 1 -> num_functions fm = 5 ->
         exists s, evaluate_solid fs [fm] = Some s
                   /\ (single_responsibility s == 1)%Q)
  /\ (forall fs fm,
         num_classes fm = 1 -> num_functions fm = 15 ->
         exists s, evaluate_solid fs [fm] = Some s
                   /\ (single_responsibility s == 0)%Q).
Proof.
  assert (main : forall fs files,
      exists s,
        evaluate_solid fs files = Some s
        /\ (single_responsibility s
            == if class_total files =? 0 then 1
               else
                 let avg := to_double (functions_per_class files) in
                 round3 (Qmax 0 (fsub 1 (fquot (Qmax 0 (fsub avg 5)) 10))))%Q).
  { intros fs files.
    destruct (evaluate_solid_returns fs files)
      as (srp & ocp & isp & dip & Hsrp & _ & _ & _ & Heval).
    eexists. split; [exact Heval |].
    cbn [single_responsibility].
    rewrite srp_score_value in Hsrp. injection Hsrp as <-.
    destruct (solid_totals_sums fs files) as (Hc & Hf & _ & _).
    cbv zeta in Hc, Hf. rewrite Hc, Hf.
    destruct (class_total files =? 0) eqn:Hzero; [reflexivity |].
    rewrite double_of_quotient by now apply Nat.eqb_neq.
    reflexivity. }
  split; [exact main |].
  split; intros fs fm Hclasses Hfunctions;
    destruct (main fs [fm]) as (s & Heval & Hscore);
    exists s; (split; [exact Heval |]);
    rewrite Hscore;
    unfold functions_per_class, class_total, function_total;
    cbn [map list_sum]; rewrite Hclasses, Hfunctions;
    vm_compute; reflexivity.
Qed.

Lemma single_responsibility_is_rounded_degradation_witness :
  (exists s, evaluate_solid services_fs services_run = Some s
             /\ (single_responsibility s == to_double (967 # 1000))%Q)
  /\ (exists s,
         evaluate_solid helper_fs
           [mkFileMetrics "proj/helper.py" 43 8 0 1 Simple 60 0 0 false
                          "python" []] = Some s
         /\ (single_responsibility s == to_double (963 # 1000))%Q)
  /\ (exists s,
         evaluate_solid helper_fs
           [mkFileMetrics "proj/helper.py" 5 1 0 1 Simple 6 0 0 false
                          "python" []] = Some s
         /\ (single_responsibility s == 1)%Q)
  /\ (exists s,
         evaluate_solid helper_fs
           [mkFileMetrics "proj/helper.py" 15 1 0 1 Simple 16 0 0 false
                          "python" []] = Some s
         /\ (single_responsibility s == 0)%Q).
Proof.
  destruct single_responsibility_is_rounded_degradation
    as (Hmain & Hfive & Hfifteen).
  split.
  { destruct (Hmain services_fs services_run) as (s & Heval & Hscore).
    exists s. split; [exact Heval |].
    rewrite Hscore. vm_compute. reflexivity. }
  split.
  { destruct (Hmain helper_fs
                [mkFileMetrics "proj/helper.py" 43 8 0 1 Simple 60 0 0 false
                               "python" []]) as (s & Heval & Hscore).
    exists s. split; [exact Heval |].
    rewrite Hscore. vm_compute. reflexivity. }
  split.
  - apply Hfive; reflexivity.
  - apply Hfifteen; reflexivity.
Defined.

(** The rounding at work: with three classes and sixteen functions the
    formula gives a double next to 29/30, and the score is the double of
    0.967. *)
Example single_responsibility_of_services :
  class_total services_run = 3
  /\ function_total services_run = 16
  /\ exists s,
      evaluate_solid services_fs services_run = Some s
      /\ (single_responsibility s == to_double (967 # 1000))%Q
      /\ ~ (single_responsibility s
            == degrade (to_double (functions_per_class services_run)))%Q.
Proof.
  split; [vm_compute; reflexivity |].
  split; [vm_compute; reflexivity |].
  eexists. split; [vm_compute; reflexivity |].
  split; vm_compute; congruence.
Qed.

(* ================================================================== *)
(** * Properties of the functional-style evaluator *)
(* ================================================================== *)

Section FunctionalTotals.

Variable fs : filesystem.

Lemma functional_totals_snoc files fm :
  functional_totals fs (files ++ [fm])
  = functional_step fs (functional_totals fs files) fm.
Proof. unfold functional_totals. now rewrite fold_left_app. Qed.

Lemma sum_functions_total files : sum_functions files = function_total files.
Proof.
  unfold sum_functions, function_total.
  induction files as [| fm files IH] using rev_ind.
  - reflexivity.
  - rewrite fold_left_app, map_app. cbn [map fold_left].
    now rewrite list_sum_snoc, <- IH.
Qed.

(** The earlier positions of a run do not see a record added at its end. *)
Lemma assignments_so_far_snoc files fm i :
  i < List.length files ->
  assignments_so_far fs (files ++ [fm]) i = assignments_so_far fs files i.
Proof.
  intros Hi. unfold assignments_so_far.
  rewrite firstn_app.
  replace (S i - List.length files) with 0 by lia.
  now rewrite firstn_O, app_nil_r.
Qed.

Lemma assignments_so_far_last files fm :
  assignments_so_far fs (files ++ [fm]) (List.length files)
  = list_sum (map (assignment_lines fs) files) + assignment_lines fs fm.
Proof.
  unfold assignments_so_far.
  rewrite firstn_all2 by (rewrite length_app; simpl; lia).
  rewrite map_app. cbn [map]. now rewrite list_sum_snoc.
Qed.

Lemma pure_share_snoc files fm i :
  i < List.length files ->
  pure_share fs (files ++ [fm]) i = pure_share fs files i.
Proof.
  intros Hi. unfold pure_share, counted_pure.
  rewrite nth_error_app1 by exact Hi.
  now rewrite assignments_so_far_snoc.
Qed.

Lemma pure_share_last files fm :
  pure_share fs (files ++ [fm]) (List.length files)
  = if (list_sum (map (assignment_lines fs) files)
        + assignment_lines fs fm =? 0)
       && reread_without_print fs fm
    then num_functions fm else 0.
Proof.
  unfold pure_share, counted_pure.
  rewrite nth_error_app2 by lia.
  rewrite Nat.sub_diag. cbn [nth_error].
  now rewrite assignments_so_far_last.
Qed.

Lemma pure_total_snoc files fm :
  pure_total fs (files ++ [fm])
  = pure_total fs files + pure_share fs (files ++ [fm]) (List.length files).
Proof.
  unfold pure_total.
  rewrite length_app. cbn [List.length].
  rewrite Nat.add_1_r, seq_S, map_app. cbn [Nat.add map].
  rewrite list_sum_snoc. f_equal. f_equal.
  apply map_ext_in. intros i Hi. apply in_seq in Hi.
  apply pure_share_snoc. lia.
Qed.

(** The accumulators of the loop are the quantities of the purity rule. *)
Lemma functional_totals_sums files :
  total_assignments (functional_totals fs files)
  = list_sum (map (assignment_lines fs) files)
  /\ pure_functions (functional_totals fs files) = pure_total fs files.
Proof.
  induction files as [| fm files [IHa IHp]] using rev_ind.
  - split; reflexivity.
  - rewrite functional_totals_snoc, pure_total_snoc, pure_share_last,
      map_app.
    cbn [map]. rewrite list_sum_snoc.
    assert (Hlines :
              assignment_lines fs fm
              = match read_text fs (path fm) with
                | Some text => List.length (findall assignment_pattern text)
                | None => 0
                end) by reflexivity.
    assert (Hprint :
              reread_without_print fs fm
              = match read_text fs (path fm) with
                | Some text => negb (re_search print_pattern text)
                | None => false
                end) by reflexivity.
    unfold functional_step.
    destruct (read_text fs (path fm)) as [text |]; rewrite Hlines, Hprint.
    + cbn [total_assignments pure_functions].
      rewrite IHa, IHp. split; [reflexivity |].
      destruct (num_functions fm) as [| n]; cbn [Nat.ltb Nat.leb].
      * destruct (_ && _); lia.
      * destruct (_ && _); lia.
    + rewrite andb_false_r, IHa, IHp. split; lia.
Qed.

(** Only functions of the records are ever counted as pure. *)
Lemma pure_total_le_functions files :
  pure_total fs files <= function_total files.
Proof.
  induction files as [| fm files IH] using rev_ind.
  - cbn. lia.
  - rewrite pure_total_snoc, pure_share_last.
    unfold function_total in *. rewrite map_app. cbn [map].
    rewrite list_sum_snoc.
    destruct (_ && _); lia.
Qed.

Lemma purity_score_value c total :
  purity_score c total
  = Some (if total =? 0 then 0%Q
          else to_double (Z.of_nat (pure_functions c) # Pos.of_nat total)).
Proof. unfold purity_score, fdiv, truediv. destruct total; reflexivity. Qed.

Lemma hof_score_value c total :
  hof_score c total
  = Some (Qmin 1 (to_double (Z.of_nat (higher_order_count c)
                             # Pos.of_nat (Nat.max 1 total)))).
Proof.
  unfold hof_score. rewrite fdiv_nonzero by lia. reflexivity.
Qed.

Lemma immutability_score_value c :
  immutability_score c
  = Some (Qmin 1 (to_double
                    (Z.of_nat (immutable_count c)
                     # Pos.of_nat (Nat.max 1 (total_assignments c + 1))))).
Proof.
  unfold immutability_score. rewrite fdiv_nonzero by lia. reflexivity.
Qed.

(** [evaluate_functional] always returns: every division is guarded. *)
Lemma evaluate_functional_returns files :
  exists p h i,
    purity_score (functional_totals fs files) (sum_functions files) = Some p
    /\ hof_score (functional_totals fs files) (sum_functions files) = Some h
    /\ immutability_score (functional_totals fs files) = Some i
    /\ evaluate_functional fs files
       = Some (mkFunctionalScores (round3 p) (round3 h) (round3 i)).
Proof.
  unfold evaluate_functional.
  rewrite purity_score_value, hof_score_value, immutability_score_value.
  do 3 eexists. repeat split; reflexivity.
Qed.

End FunctionalTotals.

(** C2, as the code has it.  The functions of a file count as pure exactly
    when the file can be reread, the run-wide number of assignment lines
    is zero once the file's own lines are added, and its text has no
    print/log call.  [evaluate_functional] returns, and its purity score
    is 0 when the records have no function at all, and otherwise the
    number of functions so counted divided by the number of functions of
    the records (the double that [/] returns), rounded to three decimals
    the way [round(x, 3)] rounds a double. *)
Theorem purity_is_rounded_pure_fraction fs files :
  exists s,
    evaluate_functional fs files = Some s
    /\ (purity s
        == if function_total files =? 0 then 0
           else round3 (to_double (of_nat (pure_total fs files)
                                   / of_nat (function_total files))))%Q.
Proof.
  destruct (evaluate_functional_returns fs files)
    as (p & h & i & Hp & _ & _ & Heval).
  eexists. split; [exact Heval |].
  cbn [purity].
  rewrite purity_score_value in Hp. injection Hp as <-.
  destruct (functional_totals_sums fs files) as (_ & Hpure).
  rewrite Hpure, sum_functions_total.
  destruct (function_total files =? 0) eqn:Hzero; [reflexivity |].
  rewrite double_of_quotient by now apply Nat.eqb_neq.
  reflexivity.
Qed.

(** C2, where the claim as written fails: a record with one function
    whose file cannot be reread.  The count of assignment lines is zero
    when its turn comes and no print call is seen in its text (empty, as
    the other evaluator takes it), yet its function is not counted as
    pure: the run scores 0, not 1. *)
Lemma purity_differs_from_plain_fraction :
  vanished_fs "proj/gone.py" = Unopenable
  /\ assignments_so_far vanished_fs vanished_run 0 = 0
  /\ forallb (fun fm => negb (re_search print_pattern
                                        (text_or_empty vanished_fs fm)))
             vanished_run = true
  /\ function_total vanished_run = 1
  /\ pure_functions (functional_totals vanished_fs vanished_run) = 0
  /\ exists s,
      evaluate_functional vanished_fs vanished_run = Some s
      /\ (purity s == 0)%Q /\ ~ (purity s == 1)%Q.
Proof.
  split; [reflexivity |].
  split; [vm_compute; reflexivity |].
  split; [vm_compute; reflexivity |].
  split; [vm_compute; reflexivity |].
  split; [vm_compute; reflexivity |].
  eexists. split; [vm_compute; reflexivity |].
  split; vm_compute; congruence.
Qed.

(** Three functions of which one is counted as pure: the score is the
    double of 0.333, the quotient rounded to three decimals. *)
Example purity_of_report :
  pure_total report_fs report_run = 1
  /\ function_total report_run = 3
  /\ exists s,
      evaluate_functional report_fs report_run = Some s
      /\ (purity s == to_double (333 # 1000))%Q
      /\ ~ (purity s
            == to_double (of_nat (pure_total report_fs report_run)
                          / of_nat (function_total report_run)))%Q.
Proof.
  split; [vm_compute; reflexivity |].
  split; [vm_compute; reflexivity |].
  eexists. split; [vm_compute; reflexivity |].
  split; vm_compute; congruence.
Qed.

(** The last digit of a score follows the double, not the exact
    quotient.  The double of 1/80 lies above 0.0125, so one inheritance
    match over 80 classes, and one pure function of 80, score 0.013;
    43 functions over 8 classes give the double of 0.9625 or more, which
    scores 0.963; and 1/16 = 0.0625, which a double holds exactly, goes
    to the even digit, 0.062. *)
Example last_digit_follows_the_double :
  (round3 (to_double (1 # 80)) == to_double (13 # 1000))%Q
  /\ (round3 (degrade (to_double (43 # 8))) == to_double (963 # 1000))%Q
  /\ (round3 (to_double (1 # 16)) == to_double (62 # 1000))%Q
  /\ (exists s,
         evaluate_solid pair_fs
           [mkFileMetrics "proj/Pair.java" 0 80 0 1 Simple 160 0 0 false
                          "java" []] = Some s
         /\ (open_closed s == to_double (13 # 1000))%Q)
  /\ (exists s,
         evaluate_functional report_fs
           [mkFileMetrics "proj/helper.py" 1 0 0 1 Simple 2 0 0 false
                          "python" [];
            mkFileMetrics "proj/report.py" 79 0 0 1 Simple 160 0 0 false
                          "python" []] = Some s
         /\ (purity s == to_double (13 # 1000))%Q).
Proof.
  repeat (split; [vm_compute; reflexivity |]).
  split; eexists; split; vm_compute; reflexivity.
Qed.

(* ================================================================== *)
(** * The range of the scores *)
(* ================================================================== *)

Section UnitInterval.

Lemma round_half_even_bounds x n :
  (0 <= x)%Q -> (x <= inject_Z n)%Q ->
  (0 <= round_half_even x <= n)%Z.
Proof.
  intros Hlo Hhi. unfold round_half_even.
  assert (Hfloor := Qfloor_le x).
  assert (Hf0 : (0 <= Qfloor x)%Z).
  { change 0%Z with (Qfloor 0). now apply Qfloor_resp_le. }
  assert (Hfn : (Qfloor x <= n)%Z).
  { rewrite <- (Qfloor_Z n). now apply Qfloor_resp_le. }
  assert (Hstep : (inject_Z (Qfloor x) + (1 # 2) <= x)%Q ->
                  (Qfloor x + 1 <= n)%Z).
  { intros Hhalf.
    destruct (Z_le_gt_dec (Qfloor x + 1) n) as [Hok | Hbad]; [exact Hok |].
    assert (Hle : (n <= Qfloor x)%Z) by lia.
    rewrite Zle_Qle in Hle. lra. }
  destruct (Qcompare (x - inject_Z (Qfloor x)) (1 # 2)) eqn:Hcmp.
  - apply Qeq_alt in Hcmp.
    destruct (Z.even (Qfloor x)); [lia |].
    split; [lia |]. apply Hstep. lra.
  - lia.
  - apply Qgt_alt in Hcmp.
    split; [lia |]. apply Hstep. lra.
Qed.

Lemma round_half_even_nonneg x : (0 <= x)%Q -> (0 <= round_half_even x)%Z.
Proof.
  intros Hlo.
  apply (round_half_even_bounds x (Qceiling x)); [exact Hlo |].
  apply Qle_ceiling.
Qed.

Lemma pow2_pos k : (0 < pow2 k)%Q.
Proof.
  destruct k as [| p | p]; cbn [pow2].
  - reflexivity.
  - change 0%Q with (inject_Z 0). rewrite <- Zlt_Qlt.
    apply Z.pow_pos_nonneg; lia.
  - reflexivity.
Qed.

Lemma nearest_double_nonneg q : (0 <= q)%Q -> (0 <= nearest_double q)%Q.
Proof.
  intros Hq. unfold nearest_double. cbv zeta.
  set (e := Z.max (binade q - 52) (-1074)).
  assert (Hp := pow2_pos e).
  apply Qmult_le_0_compat; [| now apply Qlt_le_weak].
  change 0%Q with (inject_Z 0). rewrite <- Zle_Qle.
  apply round_half_even_nonneg.
  apply Qle_shift_div_l; [exact Hp |]. lra.
Qed.

Lemma binade_of_fraction q : (0 < q)%Q -> (q <= 1)%Q -> (binade q <= 0)%Z.
Proof.
  intros Hpos Hle. unfold binade.
  destruct (Qle_bool 1 q) eqn:Hcmp.
  - apply Qle_bool_iff in Hcmp.
    assert (Hone : (q == 1)%Q) by lra.
    rewrite (Qfloor_comp _ _ Hone). reflexivity.
  - assert (H := Z.log2_up_nonneg (Qceiling (/ q))). lia.
Qed.

(** No number up to 1 is rounded to a double above 1: the significand of
    [q <= 1] is [q * 2^k] rounded, which is at most [2^k]. *)
Lemma nearest_double_le_one q :
  (0 < q)%Q -> (q <= 1)%Q -> (nearest_double q <= 1)%Q.
Proof.
  intros Hpos Hle. unfold nearest_double. cbv zeta.
  assert (Hb := binade_of_fraction q Hpos Hle).
  destruct (Z.max (binade q - 52) (-1074)) as [| p | p] eqn:He; try lia.
  cbn [pow2].
  assert (Hscaled : (q / (1 # 2 ^ p) == q * inject_Z (Z.pos (2 ^ p)))%Q).
  { unfold Qdiv. reflexivity. }
  destruct (round_half_even_bounds (q / (1 # 2 ^ p)) (Z.pos (2 ^ p)))
    as [_ Hm].
  - rewrite Hscaled. apply Qmult_le_0_compat; [lra |].
    unfold Qle. cbn. lia.
  - rewrite Hscaled.
    assert (Hn : (0 <= inject_Z (Z.pos (2 ^ p)))%Q) by (unfold Qle; cbn; lia).
    nra.
  - unfold Qle, Qmult, inject_Z. cbn [Qnum Qden]. lia.
Qed.

Lemma to_double_nonneg q : (0 <= q)%Q -> (0 <= to_double q)%Q.
Proof.
  intros Hlo. unfold to_double. cbv zeta.
  assert (Hred := Qred_correct q).
  destruct (Qred q ?= 0)%Q eqn:Hcmp.
  - lra.
  - apply Qlt_alt in Hcmp. lra.
  - apply Qgt_alt in Hcmp. apply nearest_double_nonneg. lra.
Qed.

Lemma to_double_le_one q : (q <= 1)%Q -> (to_double q <= 1)%Q.
Proof.
  intros Hhi. unfold to_double. cbv zeta.
  assert (Hred := Qred_correct q).
  destruct (Qred q ?= 0)%Q eqn:Hcmp.
  - lra.
  - apply Qlt_alt in Hcmp.
    assert (H := nearest_double_nonneg (- Qred q)).
    lra.
  - apply Qgt_alt in Hcmp. apply nearest_double_le_one; lra.
Qed.

(** Rounding to a double keeps a number between 0 and 1. *)
Lemma to_double_in_unit q : in_unit q -> in_unit (to_double q).
Proof.
  intros [Hlo Hhi]. split;
    [now apply to_double_nonneg | now apply to_double_le_one].
Qed.

(** Rounding keeps a score between 0 and 1. *)
Lemma round3_in_unit q : in_unit q -> in_unit (round3 q).
Proof.
  intros [Hlo Hhi]. unfold round3.
  destruct (round_half_even_bounds (q * 1000) 1000) as [Hz0 Hz1].
  - lra.
  - change (inject_Z 1000) with 1000%Q. lra.
  - apply to_double_in_unit.
    split; unfold Qle; cbn [Qnum Qden]; lia.
Qed.

Lemma fraction_nonneg a p : (0 <= Z.of_nat a # p)%Q.
Proof. unfold Qle. cbn [Qnum Qden]. lia. Qed.

Lemma fraction_in_unit a b :
  a <= b -> b <> 0 -> in_unit (Z.of_nat a # Pos.of_nat b).
Proof.
  intros Hab Hb. split; [apply fraction_nonneg |].
  assert (Hpos : Z.pos (Pos.of_nat b) = Z.of_nat b).
  { now rewrite <- Znat.positive_nat_Z, Nat2Pos.id. }
  unfold Qle. cbn [Qnum Qden]. rewrite Hpos. lia.
Qed.

Lemma double_fraction_nonneg a p : (0 <= to_double (Z.of_nat a # p))%Q.
Proof. apply to_double_nonneg, fraction_nonneg. Qed.

Lemma double_fraction_in_unit a b :
  a <= b -> b <> 0 -> in_unit (to_double (Z.of_nat a # Pos.of_nat b)).
Proof. intros Hab Hb. now apply to_double_in_unit, fraction_in_unit. Qed.

Lemma degrade_in_unit q : in_unit (degrade q).
Proof.
  unfold degrade. split.
  - apply Q.le_max_l.
  - apply Q.max_lub; [lra |].
    unfold fsub at 1. apply to_double_le_one.
    assert (Htenth : (0 <= fquot (Qmax 0 (fsub q 5)) 10)%Q).
    { unfold fquot. apply to_double_nonneg.
      assert (H := Q.le_max_l 0 (fsub q 5)).
      apply Qle_shift_div_l; lra. }
    lra.
Qed.

Lemma capped_in_unit q : (0 <= q)%Q -> in_unit (Qmin 1 q).
Proof.
  intros Hq. split.
  - apply Q.min_glb; [lra | exact Hq].
  - apply Q.le_min_l.
Qed.

Lemma one_in_unit : in_unit 1.
Proof. split; lra. Qed.

Lemma zero_in_unit : in_unit 0.
Proof. split; lra. Qed.

End UnitInterval.

(** The part of C6 that holds: on every run both evaluators return, and
    every score other than dependency_inversion lies between 0 and 1. *)
Lemma scores_other_than_dependency_inversion_in_unit fs files :
  exists s f,
    evaluate_solid fs files = Some s
    /\ evaluate_functional fs files = Some f
    /\ in_unit (single_responsibility s)
    /\ in_unit (open_closed s)
    /\ in_unit (interface_segregation s)
    /\ in_unit (liskov_substitution s)
    /\ in_unit (purity f)
    /\ in_unit (higher_order_usage f)
    /\ in_unit (immutability f).
Proof.
  destruct (evaluate_solid_returns fs files)
    as (srp & ocp & isp & dip & Hsrp & Hocp & Hisp & _ & Hsolid).
  destruct (evaluate_functional_returns fs files)
    as (p & h & i & Hp & Hh & Hi & Hfunctional).
  do 2 eexists.
  split; [exact Hsolid |]. split; [exact Hfunctional |].
  cbn [single_responsibility open_closed interface_segregation
         liskov_substitution purity higher_order_usage immutability].
  rewrite srp_score_value in Hsrp. injection Hsrp as <-.
  rewrite ocp_score_value in Hocp. injection Hocp as <-.
  rewrite isp_score_value in Hisp. injection Hisp as <-.
  rewrite purity_score_value in Hp. injection Hp as <-.
  rewrite hof_score_value in Hh. injection Hh as <-.
  rewrite immutability_score_value in Hi. injection Hi as <-.
  clear Hsolid Hfunctional.
  split.
  { apply round3_in_unit.
    destruct (_ =? 0); [apply one_in_unit | apply degrade_in_unit]. }
  split.
  { apply round3_in_unit.
    destruct (_ =? 0);
      [apply one_in_unit | apply capped_in_unit, double_fraction_nonneg]. }
  split.
  { apply round3_in_unit.
    destruct (_ =? 0); [apply one_in_unit | apply degrade_in_unit]. }
  split.
  { split; lra. }
  split.
  { apply round3_in_unit.
    destruct (sum_functions files =? 0) eqn:Hzero; [apply zero_in_unit |].
    apply double_fraction_in_unit; [| now apply Nat.eqb_neq].
    destruct (functional_totals_sums fs files) as (_ & ->).
    rewrite sum_functions_total. apply pure_total_le_functions. }
  split; apply round3_in_unit, capped_in_unit, double_fraction_nonneg.
Qed.

(** C6 (at an input where the code departs from it).  The scanner gives
    one record for a Python file whose two import lines are separated by
    a form feed.  [evaluate_solid] counts two abstraction-mentioning
    import lines there ([str.splitlines] breaks a line at a form feed)
    against one import line in all (reading a file line by line does
    not), so dependency_inversion is 2, outside the interval from 0 to
    1. *)
Theorem dependency_inversion_exceeds_one :
  List.length paged_run = 1
  /\ uses_abstract_in_imports (solid_totals paged_fs paged_run) = 2
  /\ import_total paged_fs paged_run = 1
  /\ exists s,
      evaluate_solid paged_fs paged_run = Some s
      /\ (dependency_inversion s == 2)%Q
      /\ ~ in_unit (dependency_inversion s).
Proof.
  split; [vm_compute; reflexivity |].
  split; [vm_compute; reflexivity |].
  split; [vm_compute; reflexivity |].
  eexists. split; [vm_compute; reflexivity |].
  split; [vm_compute; reflexivity |].
  intros [_ H]. vm_compute in H. congruence.
Qed.

(* ================================================================== *)
(** * Further properties of the scanner *)
(* ================================================================== *)

Section ScanTotals.

Lemma count_patterns_from patterns line :
  forall start,
    fold_left
      (fun count kw =>
         if re_search (keyword_regex kw) line then count + 1 else count)
      patterns start
    = start + List.length (found_keywords patterns line).
Proof.
  unfold found_keywords.
  induction patterns as [| kw patterns IH]; intros start; cbn [fold_left filter].
  - cbn. lia.
  - rewrite IH. destruct (re_search (keyword_regex kw) line); cbn; lia.
Qed.

Lemma count_patterns_found patterns line :
  count_patterns patterns line = List.length (found_keywords patterns line).
Proof. unfold count_patterns. now rewrite count_patterns_from. Qed.

Lemma scan_line_comments st line :
  comment_count (metrics (scan_line st line))
  = comment_count (metrics st)
    + (if is_comment_line (strip line) then 1 else 0).
Proof.
  unfold scan_line.
  destruct (if String.eqb (language (metrics st)) "python"
            then indent_step (indent_char st) (mixed_indent (metrics st)) line
            else (indent_char st, mixed_indent (metrics st))) as [i mx].
  cbn [metrics set_counts comment_count].
  destruct (is_comment_line (strip line)); lia.
Qed.

Lemma scan_line_long_lines st line :
  long_line_count (metrics (scan_line st line))
  = long_line_count (metrics st)
    + (if 79 <? String.length (rstrip_newlines line) then 1 else 0).
Proof.
  unfold scan_line.
  destruct (if String.eqb (language (metrics st)) "python"
            then indent_step (indent_char st) (mixed_indent (metrics st)) line
            else (indent_char st, mixed_indent (metrics st))) as [i mx].
  cbn [metrics set_counts long_line_count].
  destruct (79 <? String.length (rstrip_newlines line)); lia.
Qed.

Lemma scan_line_complexity st line :
  complexity (scan_line st line)
  = complexity st + count_patterns decision_keywords line.
Proof.
  unfold scan_line.
  destruct (if String.eqb (language (metrics st)) "python"
            then indent_step (indent_char st) (mixed_indent (metrics st)) line
            else (indent_char st, mixed_indent (metrics st))) as [i mx].
  reflexivity.
Qed.

Lemma scan_line_language st line :
  language (metrics (scan_line st line)) = language (metrics st).
Proof.
  unfold scan_line.
  destruct (if String.eqb (language (metrics st)) "python"
            then indent_step (indent_char st) (mixed_indent (metrics st)) line
            else (indent_char st, mixed_indent (metrics st))) as [i mx].
  reflexivity.
Qed.

Lemma scan_line_mixed_other st line :
  language (metrics st) <> "python" ->
  mixed_indent (metrics (scan_line st line)) = mixed_indent (metrics st).
Proof.
  intros Hlang. unfold scan_line.
  apply String.eqb_neq in Hlang. rewrite Hlang.
  reflexivity.
Qed.

Lemma list_sum_cons n l : list_sum (n :: l) = n + list_sum l.
Proof. reflexivity. Qed.

(** The line counter and the complexity after a run of lines. *)
Lemma scan_fold_totals lines :
  forall st,
    line_count (metrics (fold_left scan_line lines st))
    = line_count (metrics st) + List.length lines
    /\ complexity (fold_left scan_line lines st)
       = complexity st
         + list_sum (map (count_patterns decision_keywords) lines).
Proof.
  induction lines as [| line lines IH]; intros st; cbn [fold_left].
  - cbn. lia.
  - destruct (IH (scan_line st line)) as [-> ->].
    rewrite scan_line_line_count, scan_line_complexity.
    cbn [map List.length]. rewrite list_sum_cons. split; lia.
Qed.

Lemma scan_fold_language lines :
  forall st,
    language (metrics (fold_left scan_line lines st)) = language (metrics st).
Proof.
  induction lines as [| line lines IH]; intros st; cbn [fold_left].
  - reflexivity.
  - now rewrite IH, scan_line_language.
Qed.

Lemma list_sum_bounded (l : list nat) (b : nat) :
  Forall (fun n => n <= b) l -> list_sum l <= b * List.length l.
Proof.
  induction 1 as [| n l Hn _ IH]; [cbn; lia |].
  rewrite list_sum_cons. cbn [List.length]. lia.
Qed.

End ScanTotals.

(** X1.  In every record of the scanner the number of comment lines and
    the number of long lines are each at most the number of lines. *)
Theorem comment_and_long_lines_at_most_lines fs p m :
  analyse_file fs p = Some m ->
  comment_count m <= line_count m /\ long_line_count m <= line_count m.
Proof.
  unfold analyse_file.
  destruct (read_text fs p) as [text |]; [| discriminate].
  intros [= <-].
  unfold scan_lines.
  cbn [with_complexity comment_count long_line_count line_count].
  apply (fold_left_invariant
           (fun st => comment_count (metrics st) <= line_count (metrics st)
                      /\ long_line_count (metrics st)
                         <= line_count (metrics st))).
  - intros st line [Hc Hl].
    rewrite scan_line_line_count, scan_line_comments, scan_line_long_lines.
    destruct (is_comment_line (strip line)),
      (79 <? String.length (rstrip_newlines line)); lia.
  - cbn. lia.
Qed.

Lemma comment_and_long_lines_at_most_lines_witness :
  exists m,
    analyse_file (single_file "src/guard.js" guard_js) "src/guard.js" = Some m
    /\ comment_count m <= line_count m /\ long_line_count m <= line_count m.
Proof.
  eexists. split; [vm_compute; reflexivity |].
  apply (comment_and_long_lines_at_most_lines
           (single_file "src/guard.js" guard_js) "src/guard.js").
  vm_compute; reflexivity.
Defined.

(** X2.  [count_patterns] counts each entry of its list at most once per
    line, entry by entry: the count over a concatenated list is the sum of
    the counts, a keyword listed twice is counted twice, and the count
    never exceeds the length of the list. *)
Theorem count_patterns_is_per_entry patterns more line :
  count_patterns (patterns ++ more) line
  = count_patterns patterns line + count_patterns more line
  /\ count_patterns patterns line <= List.length patterns
  /\ count_patterns (patterns ++ patterns) line
     = 2 * count_patterns patterns line.
Proof.
  rewrite !count_patterns_found. unfold found_keywords.
  rewrite !filter_app, !length_app.
  split; [reflexivity |]. split; [apply filter_length_le | lia].
Qed.

(** X3.  The record of a file has as many lines as the file, and its
    complexity is 1 plus the keyword counts of its lines; so the
    complexity is at least 1 and at most 1 plus 14 per line. *)
Theorem complexity_is_one_plus_line_counts fs p m :
  analyse_file fs p = Some m ->
  exists text,
    read_text fs p = Some text
    /\ line_count m = List.length (readlines text)
    /\ cyclomatic_complexity m
       = 1 + list_sum (map (count_patterns decision_keywords)
                           (readlines text))
    /\ 1 <= cyclomatic_complexity m <= 1 + 14 * line_count m.
Proof.
  unfold analyse_file.
  destruct (read_text fs p) as [text |]; [| discriminate].
  intros [= <-]. exists text. split; [reflexivity |].
  unfold scan_lines. cbn [with_complexity line_count cyclomatic_complexity].
  match goal with
  | |- context [fold_left scan_line ?ls ?st] =>
      destruct (scan_fold_totals ls st) as [Hlines Hcomplexity]
  end.
  rewrite Hlines, Hcomplexity. cbn [metrics complexity line_count with_language
                                      new_metrics].
  split; [lia |]. split; [lia |]. split; [lia |].
  assert (Hbound :
            list_sum (map (count_patterns decision_keywords) (readlines text))
            <= 14 * List.length (map (count_patterns decision_keywords)
                                     (readlines text))).
  { apply list_sum_bounded. apply Forall_forall.
    intros n Hn. apply in_map_iff in Hn. destruct Hn as (line & <- & _).
    rewrite count_patterns_found.
    apply (filter_length_le _ decision_keywords). }
  rewrite length_map in Hbound. lia.
Qed.

Lemma complexity_is_one_plus_line_counts_witness :
  exists m text,
    analyse_file (single_file "src/guard.js" guard_js) "src/guard.js" = Some m
    /\ read_text (single_file "src/guard.js" guard_js) "src/guard.js"
       = Some text
    /\ line_count m = List.length (readlines text)
    /\ 1 <= cyclomatic_complexity m <= 1 + 14 * line_count m.
Proof.
  destruct (complexity_is_one_plus_line_counts
              (single_file "src/guard.js" guard_js) "src/guard.js"
              (scan_lines "src/guard.js"
                 (readlines
                    (universal_newlines (decode_ignore (encode guard_js))))))
    as (text & Hread & Hlines & _ & Hbounds).
  { vm_compute. reflexivity. }
  do 2 eexists.
  split; [vm_compute; reflexivity |].
  split; [exact Hread |].
  split; [exact Hlines | exact Hbounds].
Defined.

(** X4.  A file in which nothing decodes to a character gives the record
    of an empty file: no line, no declaration, complexity 1, category
    Simple, the language of its name, and both ratios 0. *)
Theorem empty_file_gives_blank_record fs p raw :
  fs p = Holds raw -> decode_ignore raw = EmptyString ->
  analyse_file fs p = Some (blank_record p)
  /\ comment_ratio (blank_record p) = Some 0%Q
  /\ long_line_ratio (blank_record p) = Some 0%Q.
Proof.
  intros Hp Hraw. unfold analyse_file, read_text.
  rewrite Hp, Hraw. repeat split.
Qed.

Lemma empty_file_gives_blank_record_witness :
  analyse_file damaged_fs_blank "proj/blob.py"
  = Some (blank_record "proj/blob.py")
  /\ language (blank_record "proj/blob.py") = "python".
Proof.
  split; [| reflexivity].
  apply (empty_file_gives_blank_record damaged_fs_blank "proj/blob.py"
           [Undecodable; Undecodable]); reflexivity.
Defined.

(** X5.  The record of a file carries the language of its path, and
    only the record of a Python file can report mixed indentation. *)
Theorem mixed_indent_only_for_python fs p m :
  analyse_file fs p = Some m ->
  language m = detect_language p
  /\ (detect_language p <> "python" -> mixed_indent m = false).
Proof.
  unfold analyse_file.
  destruct (read_text fs p) as [text |]; [| discriminate].
  intros [= <-].
  unfold scan_lines. cbn [with_complexity language mixed_indent].
  split.
  - now rewrite scan_fold_language.
  - intros Hlang.
    apply (fold_left_invariant
             (fun st => language (metrics st) = detect_language p
                        /\ mixed_indent (metrics st) = false)).
    + intros st line [Hl Hm].
      rewrite scan_line_language, scan_line_mixed_other by congruence.
      auto.
    + split; reflexivity.
Qed.

Lemma mixed_indent_only_for_python_witness :
  exists m,
    analyse_file (single_file "src/guard.js" guard_js) "src/guard.js" = Some m
    /\ language m = "javascript" /\ mixed_indent m = false.
Proof.
  destruct (mixed_indent_only_for_python
              (single_file "src/guard.js" guard_js) "src/guard.js"
              (scan_lines "src/guard.js"
                 (readlines
                    (universal_newlines (decode_ignore (encode guard_js))))))
    as (Hlang & Hmixed).
  { vm_compute. reflexivity. }
  eexists. split; [vm_compute; reflexivity |].
  split; [exact Hlang | apply Hmixed; vm_compute; discriminate].
Defined.

(* ================================================================== *)
(** * Keywords that are words *)
(* ================================================================== *)

Section WordKeywords.

Lemma append_assoc (a b c : string) :
  String.append (String.append a b) c = String.append a (String.append b c).
Proof. induction a as [| x a IH]; cbn; [reflexivity | now rewrite IH]. Qed.

Lemma last_char_append a b prev :
  last_char (String.append a b) prev = last_char b (last_char a prev).
Proof.
  revert prev. induction a as [| x a IH]; intros prev; cbn;
    [reflexivity | apply IH].
Qed.

Lemma strip_prefix_of_append kw back :
  strip_prefix kw (String.append kw back) = Some back.
Proof.
  induction kw as [| c kw IH]; cbn; [reflexivity |].
  now rewrite Ascii.eqb_refl.
Qed.

Lemma word_last_from kw prev :
  kw <> EmptyString ->
  match last_char kw prev with Some c => isword c | None => false end
  = word_last kw.
Proof.
  intros Hkw. unfold word_last.
  destruct kw as [| c kw]; [contradiction | reflexivity].
Qed.

(** An attempt of a keyword pattern at the start of [kw ++ back]. *)
Lemma keyword_attempt kw prev back :
  at_word_boundary (MState prev (String.append kw back) None) = true ->
  at_word_boundary (MState (last_char kw prev) back None) = true ->
  exists st, match_here (keyword_regex kw) prev (String.append kw back)
             = Some st.
Proof.
  intros Hstart Hend.
  unfold match_here, keyword_regex.
  change (seqs [WordBoundary; lit kw; WordBoundary])
    with (Seq WordBoundary (Seq (lit kw) WordBoundary)).
  cbn [exec]. rewrite Hstart, exec_lit. cbn [rest before group1].
  rewrite strip_prefix_of_append. cbn [exec]. rewrite Hend.
  eexists. reflexivity.
Qed.

(** An attempt that succeeds somewhere makes the search succeed. *)
Lemma search_from_complete r s2 st :
  forall front prev,
    match_here r (last_char front prev) s2 = Some st ->
    exists st', search_from r prev (String.append front s2) = Some st'.
Proof.
  induction front as [| c front IH]; intros prev H.
  - cbn [String.append last_char] in *.
    destruct s2; cbn [search_from]; rewrite H; eexists; reflexivity.
  - cbn [String.append search_from].
    destruct (match_here r prev (String c (String.append front s2)));
      [eexists; reflexivity |].
    apply IH. exact H.
Qed.

(** A keyword that starts and ends with a word character is found in a
    line exactly when it stands there as a whole word. *)
Lemma word_keyword_found kw line :
  word_first kw = true -> word_last kw = true ->
  re_search (keyword_regex kw) line = true <-> whole_word_in kw line.
Proof.
  intros Hfirst Hlast.
  assert (Hkw : kw <> EmptyString) by (destruct kw; [discriminate | congruence]).
  unfold re_search. split.
  - destruct (search_from (keyword_regex kw) None line) as [st' |] eqn:Hsearch;
      [| discriminate].
    intros _.
    assert (Hside : forall prev s,
               match_here (keyword_regex kw) prev s = Some st' ->
               exists back,
                 s = String.append kw back /\ word_first back = false
                 /\ match prev with Some c => isword c | None => false end
                    = false).
    { intros prev s Hm. apply keyword_match_here in Hm.
      destruct Hm as (back & -> & Hstart & Hend).
      exists back. split; [reflexivity |].
      unfold at_word_boundary, word_before, word_after in Hstart, Hend.
      cbn [before rest] in Hstart, Hend.
      rewrite (word_last_from kw prev Hkw), Hlast in Hend.
      destruct kw as [| k0 kw']; [contradiction |].
      cbn [String.append word_first] in Hstart, Hfirst.
      rewrite Hfirst in Hstart.
      split.
      - unfold word_first. now destruct back as [| b back']; [| destruct (isword b)].
      - now destruct prev as [c |]; [destruct (isword c) |]. }
    apply search_from_attempt in Hsearch.
    destruct Hsearch as [Hhere | (front & c & s2 & -> & Hhere)];
      apply Hside in Hhere; destruct Hhere as (back & -> & Hback & Hprev).
    + exists EmptyString, back. auto.
    + exists (snoc front c), back.
      split; [| split; [| exact Hback]].
      * unfold snoc. now rewrite append_assoc.
      * unfold word_last, snoc. now rewrite last_char_append.
  - intros (front & back & -> & Hfront & Hback).
    destruct (keyword_attempt kw (last_char front None) back) as [st Hst].
    + unfold at_word_boundary, word_before, word_after. cbn [before rest].
      fold (word_last front). rewrite Hfront.
      destruct kw as [| k0 kw']; [contradiction |].
      cbn [String.append]. cbn [word_first] in Hfirst. now rewrite Hfirst.
    + unfold at_word_boundary, word_before, word_after. cbn [before rest].
      rewrite (word_last_from kw _ Hkw), Hlast.
      fold (word_first back). now rewrite Hback.
    + destruct (search_from_complete _ _ _ front None Hst) as [st' ->].
      reflexivity.
Qed.

Lemma count_patterns_app patterns more line :
  count_patterns (patterns ++ more) line
  = count_patterns patterns line + count_patterns more line.
Proof.
  rewrite !count_patterns_found. unfold found_keywords.
  now rewrite filter_app, length_app.
Qed.

End WordKeywords.

(** X6.  A keyword of the list that starts and ends with a letter (all
    but [&&], [||] and [?]) is found in a line exactly when it occurs
    there with no word character (letter, digit, underscore) touching it
    on either side; so [if] is not found in [diff], in [elif] or in
    [if_ready]. *)
Theorem word_keyword_found_iff_whole_word kw line :
  In kw ["if"; "elif"; "else if"; "for"; "while"; "case"; "switch";
         "catch"; "except"; "and"; "or"] ->
  (re_search (keyword_regex kw) line = true <-> whole_word_in kw line).
Proof.
  intros Hin. apply word_keyword_found;
    repeat (destruct Hin as [<- | Hin]; [reflexivity |]); destruct Hin.
Qed.

Lemma word_keyword_found_iff_whole_word_witness :
  re_search (keyword_regex "if") "x = 1 if y else 2" = true
  /\ ~ whole_word_in "if" "diff".
Proof.
  split.
  - apply (word_keyword_found_iff_whole_word "if" "x = 1 if y else 2").
    + now left.
    + exists "x = 1 ", " y else 2". repeat split.
  - intros H.
    apply (word_keyword_found_iff_whole_word "if" "diff") in H.
    + vm_compute in H. discriminate.
    + now left.
Defined.

(** X7.  A line in which [else if] is found also has [if] found, so it
    adds at least 2 to the complexity. *)
Theorem else_if_counts_twice line :
  re_search (keyword_regex "else if") line = true ->
  re_search (keyword_regex "if") line = true
  /\ 2 <= count_patterns decision_keywords line.
Proof.
  intros Helse.
  assert (Hif : re_search (keyword_regex "if") line = true).
  { apply word_keyword_found in Helse; [| reflexivity | reflexivity].
    apply word_keyword_found; [reflexivity | reflexivity |].
    destruct Helse as (front & back & -> & Hfront & Hback).
    exists (String.append front "else "), back.
    split; [| split; [| exact Hback]].
    - now rewrite append_assoc.
    - unfold word_last. now rewrite last_char_append. }
  split; [exact Hif |].
  change decision_keywords
    with (["if"] ++ ["elif"] ++ ["else if"]
          ++ ["for"; "while"; "case"; "switch"; "catch"; "except";
              "&&"; "||"; "?"; "and"; "or"]).
  rewrite !count_patterns_app.
  assert (H1 : count_patterns ["if"] line = 1).
  { unfold count_patterns. cbn [fold_left]. now rewrite Hif. }
  assert (H3 : count_patterns ["else if"] line = 1).
  { unfold count_patterns. cbn [fold_left]. now rewrite Helse. }
  lia.
Qed.

Lemma else_if_counts_twice_witness :
  re_search (keyword_regex "if") "} else if (ready) {" = true
  /\ 2 <= count_patterns decision_keywords "} else if (ready) {".
Proof.
  apply (else_if_counts_twice "} else if (ready) {").
  vm_compute. reflexivity.
Defined.

(** X8.  The three keywords that are operators, [&&], [||] and [?], are
    found in a line only where a word character touches them on both
    sides: [a&&b] is counted, [a && b] is not. *)
Theorem operator_keywords_need_words_on_both_sides kw line :
  In kw ["&&"; "||"; "?"] ->
  re_search (keyword_regex kw) line = true ->
  glued_between_words kw line.
Proof.
  intros Hin. apply operator_found_only_between_words.
  destruct decision_operators_are_operator_like as (Hand & Hor & Hq).
  destruct Hin as [<- | [<- | [<- | []]]]; assumption.
Qed.

Lemma operator_keywords_need_words_on_both_sides_witness :
  re_search (keyword_regex "&&") "a&&b" = true
  /\ re_search (keyword_regex "&&") "a && b" = false
  /\ glued_between_words "&&" "a&&b".
Proof.
  split; [vm_compute; reflexivity |].
  split; [vm_compute; reflexivity |].
  apply (operator_keywords_need_words_on_both_sides "&&" "a&&b").
  - now left.
  - vm_compute. reflexivity.
Defined.

(* ================================================================== *)
(** * Indentation of Python files *)
(* ================================================================== *)

Section Indentation.

(** A match hands over to its continuation at a position that is not
    before the one it started from. *)
Lemma exec_advances r :
  forall st k res,
    exec r st k = Some res ->
    exists st',
      k st' = Some res
      /\ String.length (rest st') <= String.length (rest st).
Proof.
  induction r as [| p | r1 IH1 r2 IH2 | r1 IH1 r2 IH2 | r1 IH1 | r1 IH1
                 | multiline | | r1 IH1];
    intros st k res H; cbn [exec] in H.
  - exists st. auto.
  - destruct (rest st) as [| c s'] eqn:Hrest; [discriminate |].
    destruct (p c); [| discriminate].
    eexists. split; [exact H |]. cbn [rest String.length]. lia.
  - apply IH1 in H. destruct H as (st1 & H1 & L1).
    apply IH2 in H1. destruct H1 as (st2 & H2 & L2).
    exists st2. split; [exact H2 | lia].
  - destruct (exec r1 st k) as [res1 |] eqn:E1.
    + injection H as <-. now apply IH1 in E1.
    + now apply IH2 in H.
  - match type of H with
    | ?F (String.length (rest st)) st = Some res =>
        assert (G : forall fuel cur,
                   F fuel cur = Some res ->
                   exists st',
                     k st' = Some res
                     /\ String.length (rest st') <= String.length (rest cur))
    end.
    { induction fuel as [| fuel IHfuel]; intros cur Hcur;
        cbn -[Nat.ltb String.length] in Hcur.
      - exists cur. auto.
      - match type of Hcur with
        | match ?e with _ => _ end = _ => destruct e as [res1 |] eqn:E
        end.
        + injection Hcur as <-. apply IH1 in E.
          destruct E as (nxt & Hnxt & Lnxt).
          destruct (String.length (rest nxt) <? String.length (rest cur));
            [| discriminate].
          apply IHfuel in Hnxt. destruct Hnxt as (st' & Hst' & Lst').
          exists st'. split; [exact Hst' | lia].
        + exists cur. auto. }
    now apply G in H.
  - match type of H with
    | ?F (String.length (rest st)) st = Some res =>
        assert (G : forall fuel cur,
                   F fuel cur = Some res ->
                   exists st',
                     k st' = Some res
                     /\ String.length (rest st') <= String.length (rest cur))
    end.
    { induction fuel as [| fuel IHfuel]; intros cur Hcur;
        cbn -[Nat.ltb String.length] in Hcur.
      - destruct (k cur) eqn:Ek; [| discriminate].
        exists cur. split; [congruence | lia].
      - destruct (k cur) eqn:Ek.
        + exists cur. split; [congruence | lia].
        + apply IH1 in Hcur. destruct Hcur as (nxt & Hnxt & Lnxt).
          destruct (String.length (rest nxt) <? String.length (rest cur));
            [| discriminate].
          apply IHfuel in Hnxt. destruct Hnxt as (st' & Hst' & Lst').
          exists st'. split; [exact Hst' | lia]. }
    now apply G in H.
  - destruct (at_line_start multiline st); [| discriminate].
    exists st. auto.
  - destruct (at_word_boundary st); [| discriminate].
    exists st. auto.
  - apply IH1 in H. destruct H as (st1 & H1 & L1).
    eexists. split; [exact H1 |]. exact L1.
Qed.

(** A greedy repetition before a continuation that always succeeds
    succeeds. *)
Lemma exec_star_total r st k :
  (forall st', exists res, k st' = Some res) ->
  exists res, exec (Star r) st k = Some res.
Proof.
  intros Hk. cbn [exec].
  destruct (String.length (rest st)) as [| fuel].
  - apply Hk.
  - match goal with
    | |- exists res, match ?e with _ => _ end = _ =>
        destruct e as [res1 |]
    end.
    + eexists. reflexivity.
    + apply Hk.
Qed.

(** The indentation pattern captures the whitespace a line begins with. *)
Lemma indent_pattern_captures line :
  match leading_space line with
  | Some c =>
      exists found tail,
        match_here indent_pattern None line = Some found
        /\ group1 found = Some (String c tail)
  | None => match_here indent_pattern None line = None
  end.
Proof.
  unfold leading_space, match_here, indent_pattern, plus, space.
  change (seqs [Bol false; Group (Seq (Chr isspace) (Star (Chr isspace)))])
    with (Seq (Bol false) (Group (Seq (Chr isspace) (Star (Chr isspace))))).
  destruct line as [| c s']; [reflexivity |].
  remember (Star (Chr isspace)) as star eqn:Hstar.
  cbn [exec at_line_start before rest group1].
  destruct (isspace c); [| reflexivity].
  subst star.
  match goal with
  | |- context [exec (Star ?r) ?st ?k] =>
      destruct (exec_star_total r st k) as [found Hfound];
      [intros st'; eexists; reflexivity |];
      rewrite Hfound; apply exec_advances in Hfound
  end.
  destruct Hfound as (st' & Hst' & Lst').
  injection Hst' as <-. cbn [rest] in Lst'.
  eexists. eexists. split; [reflexivity |].
  cbn [group1]. unfold consumed. cbn [rest String.length].
  rewrite Nat.sub_succ_l by exact Lst'.
  reflexivity.
Qed.

(** What the indentation check does with one line. *)
Lemma indent_step_spec indent mixed line :
  indent_step indent mixed line
  = match leading_space line with
    | Some c =>
        match indent with
        | None => (Some c, mixed)
        | Some d => if negb (c =? d)%char then (indent, true)
                    else (indent, mixed)
        end
    | None => (indent, mixed)
    end.
Proof.
  unfold indent_step.
  assert (H := indent_pattern_captures line).
  destruct (leading_space line) as [c |].
  - destruct H as (found & tail & -> & ->). reflexivity.
  - now rewrite H.
Qed.

Lemma scan_line_indent_python st line :
  language (metrics st) = "python" ->
  (indent_char (scan_line st line), mixed_indent (metrics (scan_line st line)))
  = indent_step (indent_char st) (mixed_indent (metrics st)) line.
Proof.
  intros Hlang. unfold scan_line. rewrite Hlang.
  cbn [String.eqb Ascii.eqb Bool.eqb].
  destruct (indent_step (indent_char st) (mixed_indent (metrics st)) line).
  reflexivity.
Qed.

Lemma in_snoc_l {A : Type} (x y : A) l : In x l -> In x (l ++ [y]).
Proof. intros H. apply in_or_app. now left. Qed.

Lemma in_snoc_r {A : Type} (y : A) l : In y (l ++ [y]).
Proof. apply in_or_app. right. now left. Qed.

Lemma indents_differ_snoc lines line :
  indents_differ lines -> indents_differ (lines ++ [line]).
Proof.
  intros (l1 & l2 & a & b & H1 & H2 & R).
  exists l1, l2, a, b. split; [now apply in_snoc_l |].
  split; [now apply in_snoc_l | exact R].
Qed.

(** The state of the indentation check after a run of lines of a Python
    file, started afresh. *)
Lemma indent_state_after lines st0 :
  language (metrics st0) = "python" ->
  indent_char st0 = None -> mixed_indent (metrics st0) = false ->
  let st := fold_left scan_line lines st0 in
  (forall c, indent_char st = Some c ->
             exists l, In l lines /\ leading_space l = Some c)
  /\ (mixed_indent (metrics st) = true -> indents_differ lines)
  /\ (mixed_indent (metrics st) = true
      \/ forall l c, In l lines -> leading_space l = Some c ->
                     indent_char st = Some c).
Proof.
  intros Hlang Hnone Hfalse.
  induction lines as [| line lines IH] using rev_ind; cbv zeta.
  - cbn [fold_left]. rewrite Hnone, Hfalse.
    split; [discriminate |]. split; [discriminate |].
    right. intros l c [].
  - cbv zeta in IH. rewrite fold_left_app. cbn [fold_left].
    set (st := fold_left scan_line lines st0) in *.
    destruct IH as (K1 & K2 & K3).
    assert (Hpy : language (metrics st) = "python").
    { subst st. now rewrite scan_fold_language. }
    assert (Hstep := scan_line_indent_python st line Hpy).
    rewrite indent_step_spec in Hstep.
    assert (K1' : forall c, indent_char st = Some c ->
                            exists l, In l (lines ++ [line])
                                      /\ leading_space l = Some c).
    { intros c Hc. destruct (K1 c Hc) as (l & Hl & Hll).
      exists l. split; [now apply in_snoc_l | exact Hll]. }
    assert (K2' : mixed_indent (metrics st) = true ->
                  indents_differ (lines ++ [line])).
    { intros Ht. now apply indents_differ_snoc, K2. }
    destruct (leading_space line) as [c |] eqn:Hlead.
    + destruct (indent_char st) as [d |] eqn:Hindent.
      * destruct (Ascii.eqb_spec c d) as [-> | Hcd]; cbn [negb] in Hstep;
          injection Hstep as Hi Hm; rewrite Hi, Hm.
        -- split; [exact K1' |]. split; [exact K2' |].
           destruct K3 as [Ht | Hall]; [now left | right].
           intros l c Hin Hl. apply in_app_or in Hin.
           destruct Hin as [Hin | [<- | []]]; [exact (Hall l c Hin Hl) |].
           congruence.
        -- split; [exact K1' |]. split; [| now left].
           intros _. destruct (K1 d eq_refl) as (l & Hl & Hll).
           exists l, line, d, c.
           split; [now apply in_snoc_l |].
           split; [apply in_snoc_r |].
           split; [exact Hll |]. split; [exact Hlead | congruence].
      * injection Hstep as Hi Hm; rewrite Hi, Hm.
        split; [| split; [exact K2' |]].
        -- intros c' [= <-]. exists line.
           split; [apply in_snoc_r | exact Hlead].
        -- destruct K3 as [Ht | Hall]; [now left | right].
           intros l c' Hin Hl. apply in_app_or in Hin.
           destruct Hin as [Hin | [<- | []]]; [| congruence].
           specialize (Hall l c' Hin Hl). discriminate.
    + injection Hstep as Hi Hm; rewrite Hi, Hm.
      split; [exact K1' |]. split; [exact K2' |].
      destruct K3 as [Ht | Hall]; [now left | right].
      intros l c Hin Hl. apply in_app_or in Hin.
      destruct Hin as [Hin | [<- | []]]; [exact (Hall l c Hin Hl) | congruence].
Qed.

End Indentation.

(** X9.  The record of a Python file reports mixed indentation exactly
    when two of its lines begin with different whitespace characters.
    The line terminator counts: a blank line begins with a line feed, so
    a file with a blank line and a line indented with blanks or a tab is
    reported as mixed. *)
Theorem mixed_indent_iff_indents_differ fs p m text :
  detect_language p = "python" ->
  read_text fs p = Some text ->
  analyse_file fs p = Some m ->
  (mixed_indent m = true <-> indents_differ (readlines text)).
Proof.
  intros Hpy Hread. unfold analyse_file. rewrite Hread.
  intros [= <-].
  unfold scan_lines. cbn [with_complexity mixed_indent].
  match goal with
  | |- context [fold_left scan_line ?ls ?st0] =>
      destruct (indent_state_after ls st0) as (K1 & K2 & K3);
      [exact Hpy | reflexivity | reflexivity |]
  end.
  cbv zeta in K1, K2, K3.
  split; [exact K2 |].
  intros (l1 & l2 & a & b & H1 & H2 & Ha & Hb & Hab).
  destruct K3 as [Ht | Hall]; [exact Ht |].
  rewrite (Hall l1 a H1 Ha) in Hall.
  specialize (Hall l2 b H2 Hb). congruence.
Qed.

Lemma mixed_indent_iff_indents_differ_witness :
  exists m text,
    analyse_file (single_file "proj/spaced.py" spaced_py) "proj/spaced.py"
    = Some m
    /\ read_text (single_file "proj/spaced.py" spaced_py) "proj/spaced.py"
       = Some text
    /\ indents_differ (readlines text)
    /\ mixed_indent m = true.
Proof.
  do 2 eexists.
  split; [vm_compute; reflexivity |].
  split; [vm_compute; reflexivity |].
  assert (Hdiffer :
            indents_differ
              (readlines
                 (universal_newlines (decode_ignore (encode spaced_py))))).
  { exists (String newline EmptyString),
      (String.append "    return x" (String newline EmptyString)),
      newline, " "%char.
    split; [vm_compute; auto |].
    split; [vm_compute; auto |].
    split; [reflexivity |]. split; [reflexivity |].
    vm_compute. discriminate. }
  split; [exact Hdiffer |].
  apply (mixed_indent_iff_indents_differ
           (single_file "proj/spaced.py" spaced_py) "proj/spaced.py"
           _ (universal_newlines (decode_ignore (encode spaced_py)))).
  - vm_compute. reflexivity.
  - vm_compute. reflexivity.
  - vm_compute. reflexivity.
  - exact Hdiffer.
Defined.

(* ================================================================== *)
(** * Further properties of the classifier and the walker *)
(* ================================================================== *)

Section Classifier.

Lemma lower_append a b :
  lower (String.append a b) = String.append (lower a) (lower b).
Proof. induction a as [| c a IH]; cbn; [reflexivity | now rewrite IH]. Qed.

Lemma append_empty_r s : String.append s EmptyString = s.
Proof. induction s as [| c s IH]; cbn; [reflexivity | now rewrite IH]. Qed.

Lemma basename_from_suffix s :
  forall cur, has_suffix (String.append cur s) (basename_from cur s).
Proof.
  induction s as [| c s IH]; intros cur; cbn [basename_from].
  - exists EmptyString. apply append_empty_r.
  - destruct (c =? "/")%char.
    + destruct (IH EmptyString) as [front Hfront].
      cbn [String.append] in Hfront.
      exists (String.append cur (String c front)).
      rewrite append_assoc. cbn [String.append]. now rewrite <- Hfront.
    + destruct (IH (snoc cur c)) as [front Hfront].
      exists front. rewrite <- Hfront. unfold snoc.
      now rewrite append_assoc.
Qed.

Lemma lstrip_dots_suffix s : has_suffix s (lstrip_dots s).
Proof.
  induction s as [| c s [front IH]]; cbn [lstrip_dots].
  - now exists EmptyString.
  - destruct (c =? ".")%char.
    + exists (String c front). cbn. now rewrite <- IH.
    + now exists EmptyString.
Qed.

Lemma last_dot_suffix_suffix s :
  forall e, last_dot_suffix s = Some e -> has_suffix s e.
Proof.
  induction s as [| c s IH]; intros e H; cbn [last_dot_suffix] in H.
  - discriminate.
  - destruct (last_dot_suffix s) as [e' |].
    + injection H as <-. destruct (IH e' eq_refl) as [front ->].
      now exists (String c front).
    + destruct (c =? ".")%char; [| discriminate].
      injection H as <-. now exists EmptyString.
Qed.

Lemma has_suffix_trans a b c :
  has_suffix a b -> has_suffix b c -> has_suffix a c.
Proof.
  intros [f1 ->] [f2 ->]. exists (String.append f1 f2).
  now rewrite append_assoc.
Qed.

(** The extension is an end of the path. *)
Lemma splitext_ext_suffix p : has_suffix p (splitext_ext p).
Proof.
  unfold splitext_ext, basename.
  destruct (last_dot_suffix (lstrip_dots (basename_from EmptyString p)))
    as [e |] eqn:He.
  - apply last_dot_suffix_suffix in He.
    eapply has_suffix_trans; [| exact He].
    eapply has_suffix_trans; [| apply lstrip_dots_suffix].
    apply (basename_from_suffix p EmptyString).
  - exists p. now rewrite append_empty_r.
Qed.

Lemma dict_get_known table key default :
  dict_get table key default <> default -> In key (map fst table).
Proof.
  induction table as [| [k v] table IH]; cbn [dict_get map fst]; intros H.
  - congruence.
  - destruct (String.eqb_spec k key) as [-> | _]; [now left |].
    right. now apply IH.
Qed.

Lemma basename_from_no_slash s :
  no_slash s = true ->
  forall cur, basename_from cur s = String.append cur s.
Proof.
  induction s as [| c s IH]; intros Hs cur; cbn [basename_from].
  - now rewrite append_empty_r.
  - cbn [no_slash] in Hs. apply andb_true_iff in Hs. destruct Hs as [Hc Hs].
    apply negb_true_iff in Hc. rewrite Hc, (IH Hs). unfold snoc.
    now rewrite append_assoc.
Qed.

Lemma basename_from_after_slash a b :
  forall cur,
    basename_from cur (String.append a (String "/" b))
    = basename_from EmptyString b.
Proof.
  induction a as [| c a IH]; intros cur; cbn [String.append basename_from].
  - reflexivity.
  - destruct (c =? "/")%char; apply IH.
Qed.

(** Joining a directory in front of an entry name does not change the
    base name. *)
Lemma basename_path_join dir fname :
  no_slash fname = true -> basename (path_join dir fname) = basename fname.
Proof.
  intros Hname. unfold basename, path_join.
  assert (Hstart : startswith fname "/" = false).
  { destruct fname as [| c fname]; [reflexivity |].
    cbn [no_slash] in Hname. apply andb_true_iff in Hname.
    destruct Hname as [Hc _]. apply negb_true_iff in Hc.
    cbn [startswith]. rewrite Ascii.eqb_sym, Hc. reflexivity. }
  rewrite Hstart.
  destruct (String.eqb_spec dir EmptyString) as [-> | Hdir]; cbn [orb].
  - reflexivity.
  - destruct (endswith dir "/") eqn:Hend.
    + apply endswith_spec in Hend. destruct Hend as [front ->].
      rewrite append_assoc. cbn [String.append].
      apply basename_from_after_slash.
    + apply basename_from_after_slash.
Qed.

Lemma detect_language_path_join dir fname :
  no_slash fname = true ->
  detect_language (path_join dir fname) = detect_language fname.
Proof.
  intros Hname. unfold detect_language, splitext_ext.
  now rewrite basename_path_join.
Qed.

Lemma analyse_file_language fs p m :
  analyse_file fs p = Some m -> language m = detect_language p.
Proof.
  unfold analyse_file.
  destruct (read_text fs p) as [text |]; [| discriminate].
  intros [= <-].
  unfold scan_lines. cbn [with_complexity language].
  now rewrite scan_fold_language.
Qed.

End Classifier.

Section WalkerOrder.

Variable fs : filesystem.
Variable extensions : option (list string).

Lemma scanned_path root fname :
  map path (scanned fs extensions root fname)
  = if selected extensions fname && openable fs (path_join root fname)
    then [path_join root fname] else [].
Proof.
  unfold scanned, openable.
  destruct (selected extensions fname); [| reflexivity].
  destruct (analyse_file fs (path_join root fname)) as [m |] eqn:Hm.
  - cbn [map]. rewrite (analyse_file_path _ _ _ Hm).
    destruct (fs (path_join root fname)) eqn:Hfs; [| reflexivity].
    apply analyse_file_none in Hfs. congruence.
  - apply analyse_file_none in Hm. now rewrite Hm.
Qed.

Lemma scanned_paths_of_directory root files :
  map path (flat_map (scanned fs extensions root) files)
  = map (fun df => path_join (fst df) (snd df))
        (filter (fun df => selected extensions (snd df)
                           && openable fs (path_join (fst df) (snd df)))
                (map (fun fname => (root, fname)) files)).
Proof.
  induction files as [| fname files IH]; [reflexivity |].
  cbn [flat_map map filter fst snd].
  rewrite map_app, scanned_path, IH.
  destruct (selected extensions fname && openable fs (path_join root fname));
    reflexivity.
Qed.

End WalkerOrder.

(** X10.  The paths of the records of the walker are the paths of the
    walked files that pass the filter and can be opened, in the order of
    the walk, each walked file giving at most one record. *)
Theorem walker_records_follow_walk fs tree root extensions :
  map path (analyse_directory fs tree root extensions)
  = map (fun df => path_join (fst df) (snd df))
        (filter (fun df => selected extensions (snd df)
                           && openable fs (path_join (fst df) (snd df)))
                (walked_files root tree))
  /\ List.length (analyse_directory fs tree root extensions)
     <= List.length (walked_files root tree).
Proof.
  assert (Hpaths :
            map path (analyse_directory fs tree root extensions)
            = map (fun df => path_join (fst df) (snd df))
                  (filter (fun df => selected extensions (snd df)
                                     && openable fs
                                          (path_join (fst df) (snd df)))
                          (walked_files root tree))).
  { rewrite analyse_directory_flat. unfold walked_files.
    induction (walk root tree) as [| entry entries IH]; [reflexivity |].
    cbn [flat_map]. rewrite !map_app, filter_app, map_app, IH.
    now rewrite scanned_paths_of_directory. }
  split; [exact Hpaths |].
  rewrite <- (length_map path), Hpaths, length_map.
  apply filter_length_le.
Qed.

(** X11.  An explicit but empty extension list selects nothing, so the
    walker returns no record; a list that holds the empty string selects
    every file; and a longer list never selects less. *)
Theorem extension_list_edge_cases :
  (forall fs tree root, analyse_directory fs tree root (Some []) = [])
  /\ (forall exts fname, In EmptyString exts ->
                         selected (Some exts) fname = true)
  /\ (forall exts exts' fname,
         incl exts exts' ->
         selected (Some exts) fname = true ->
         selected (Some exts') fname = true).
Proof.
  split; [| split].
  - intros fs tree root. rewrite analyse_directory_flat.
    induction (walk root tree) as [| entry entries IH]; [reflexivity |].
    cbn [flat_map]. rewrite IH, app_nil_r.
    induction (snd entry) as [| fname files IHf]; [reflexivity |].
    cbn [flat_map]. now rewrite IHf.
  - intros exts fname Hin. apply selected_spec.
    exists EmptyString. split; [exact Hin |].
    exists fname. now rewrite append_empty_r.
  - intros exts exts' fname Hincl Hsel.
    apply selected_spec in Hsel. apply selected_spec.
    destruct Hsel as (ext & Hin & Hsuffix).
    exists ext. split; [now apply Hincl | exact Hsuffix].
Qed.

Lemma extension_list_edge_cases_witness :
  analyse_directory all_empty_fs varied_tree "proj" (Some []) = []
  /\ selected (Some [".py"; ""]) "notes.txt" = true
  /\ selected (Some [".txt"; ".py"]) "main.py" = true.
Proof.
  destruct extension_list_edge_cases as (Hnone & Hall & Hmore).
  split; [apply Hnone |].
  split.
  - apply Hall. right. now left.
  - apply (Hmore [".py"]).
    + intros ext [<- | []]. right. now left.
    + reflexivity.
Defined.

(** X12.  A file name whose language the classifier knows ends, once put
    in lower case, with one of the nine extensions of its table; so the
    default filter only lets through names with such an ending. *)
Theorem known_language_has_known_extension fname :
  detect_language fname <> "unknown" ->
  exists ext,
    In ext default_extensions /\ has_suffix (lower fname) ext.
Proof.
  unfold detect_language, default_extensions. intros Hknown.
  apply dict_get_known in Hknown.
  exists (lower (splitext_ext fname)). split; [exact Hknown |].
  destruct (splitext_ext_suffix fname) as [front Hfront].
  exists (lower front). rewrite Hfront at 1. apply lower_append.
Qed.

Lemma known_language_has_known_extension_witness :
  detect_language "lib/util.PY" = "python"
  /\ exists ext,
      In ext default_extensions /\ has_suffix (lower "lib/util.PY") ext.
Proof.
  split; [reflexivity |].
  apply (known_language_has_known_extension "lib/util.PY").
  vm_compute. discriminate.
Defined.

(** X13.  When the entries of the directories carry no ["/"] in their
    names and no extension list is given, every record of the walker has
    a known language: the language the walker computes from the name is
    the one the scanner stores from the path. *)
Theorem default_filter_gives_known_languages fs tree root m :
  (forall dir files fname,
      In (dir, files) (walk root tree) -> In fname files ->
      no_slash fname = true) ->
  In m (analyse_directory fs tree root None) ->
  language m <> "unknown".
Proof.
  intros Hnames Hin.
  rewrite analyse_directory_flat in Hin. apply in_flat_map in Hin.
  destruct Hin as ([dir files] & Hwalk & Hin).
  cbn [fst snd] in Hin. apply in_flat_map in Hin.
  destruct Hin as (fname & Hfname & Hm).
  unfold scanned in Hm.
  destruct (selected None fname) eqn:Hsel; [| destruct Hm].
  destruct (analyse_file fs (path_join dir fname)) as [m' |] eqn:Hfile;
    [| destruct Hm].
  destruct Hm as [<- | []].
  rewrite (analyse_file_language _ _ _ Hfile).
  rewrite detect_language_path_join by exact (Hnames dir files fname Hwalk Hfname).
  apply selected_spec in Hsel. exact Hsel.
Qed.

Lemma default_filter_gives_known_languages_witness :
  List.map language (analyse_directory all_empty_fs varied_tree "proj" None)
  = ["python"; "python"]
  /\ forall m,
      In m (analyse_directory all_empty_fs varied_tree "proj" None) ->
      language m <> "unknown".
Proof.
  split; [vm_compute; reflexivity |].
  intros m.
  apply (default_filter_gives_known_languages all_empty_fs varied_tree "proj").
  intros dir files fname Hwalk Hfname.
  cbn in Hwalk.
  destruct Hwalk as [[= <- <-] | [[= <- <-] | []]];
    cbn in Hfname;
    repeat (destruct Hfname as [<- | Hfname]; [reflexivity |]);
    destruct Hfname.
Defined.

(* ================================================================== *)
(** * Import lines *)
(* ================================================================== *)

Section ImportLines.

(** The greedy repetition of a character class, as the matcher runs it. *)
Lemma exec_star_chr p k st :
  exec (Star (Chr p)) st k
  = star_chr p k (before st) (rest st) (group1 st).
Proof.
  cbn [exec].
  match goal with
  | |- ?F (String.length (rest st)) st = _ =>
      assert (G : forall s fuel prev g,
                 String.length s <= fuel ->
                 F fuel (MState prev s g) = star_chr p k prev s g)
  end.
  { induction s as [| c s IH]; intros fuel prev g Hfuel.
    - destruct fuel; reflexivity.
    - destruct fuel as [| fuel]; [cbn in Hfuel; lia |].
      cbn [String.length] in Hfuel.
      cbn -[Nat.ltb String.length]. cbn [rest].
      destruct (p c); [| reflexivity].
      replace (String.length s <? String.length (String c s)) with true
        by (symmetry; apply Nat.ltb_lt; cbn; lia).
      rewrite IH by lia. reflexivity. }
  destruct st as [prev s g]. cbn [before rest group1]. now apply G.
Qed.

Lemma strip_prefix_more kw t :
  forall s s',
    strip_prefix kw s = Some s' ->
    strip_prefix kw (String.append s t) = Some (String.append s' t).
Proof.
  induction kw as [| c kw IH]; intros s s' H.
  - cbn in H. injection H as <-. reflexivity.
  - destruct s as [| d s]; [discriminate |].
    cbn [strip_prefix String.append] in *.
    destruct (d =? c)%char; [now apply IH | discriminate].
Qed.

(** When the keyword part of the import pattern matches. *)
Lemma import_keyword_matches prev s g :
  is_some (exec import_keyword (MState prev s g) (fun st => Some st))
  = starts_with_import_keyword s.
Proof.
  unfold import_keyword, starts_with_import_keyword.
  change (alts [lit "import"; lit "using"; lit "require"])
    with (Alt (lit "import") (Alt (lit "using") (lit "require"))).
  cbn [exec existsb]. rewrite !exec_lit. cbn [rest before group1].
  unfold at_word_boundary, word_before, word_after.
  cbn [before rest last_char].
  replace (isword "t") with true by reflexivity.
  replace (isword "g") with true by reflexivity.
  replace (isword "e") with true by reflexivity.
  cbn [xorb].
  destruct (strip_prefix "import" s) as [s1 |];
    [fold (word_first s1); destruct (word_first s1); [| reflexivity] |];
    (destruct (strip_prefix "using" s) as [s2 |];
     [fold (word_first s2); destruct (word_first s2); [| reflexivity] |]);
    (destruct (strip_prefix "require" s) as [s3 |];
     [fold (word_first s3); destruct (word_first s3) |]);
    reflexivity.
Qed.

Lemma import_keyword_not_after_space prev c s g :
  isspace c = true ->
  exec import_keyword (MState prev (String c s) g) (fun st => Some st) = None.
Proof.
  intros Hc.
  assert (H := import_keyword_matches prev (String c s) g).
  unfold starts_with_import_keyword in H. cbn [existsb strip_prefix] in H.
  assert (Hi : (c =? "i")%char = false).
  { destruct (Ascii.eqb_spec c "i") as [-> | _]; [discriminate | easy]. }
  assert (Hu : (c =? "u")%char = false).
  { destruct (Ascii.eqb_spec c "u") as [-> | _]; [discriminate | easy]. }
  assert (Hr : (c =? "r")%char = false).
  { destruct (Ascii.eqb_spec c "r") as [-> | _]; [discriminate | easy]. }
  rewrite Hi, Hu, Hr in H. cbn [orb] in H.
  destruct (exec import_keyword _ _); [discriminate | reflexivity].
Qed.

Lemma word_first_more s :
  word_first s = false ->
  word_first (String.append s (String newline EmptyString)) = false.
Proof. destruct s; [reflexivity | easy]. Qed.

Lemma starts_with_import_keyword_more s :
  starts_with_import_keyword s = true ->
  starts_with_import_keyword (String.append s (String newline EmptyString))
  = true.
Proof.
  unfold starts_with_import_keyword.
  rewrite !existsb_exists.
  intros (kw & Hin & H). exists kw. split; [exact Hin |].
  destruct (strip_prefix kw s) as [s' |] eqn:Hs; [| discriminate].
  rewrite (strip_prefix_more _ _ _ _ Hs).
  apply negb_true_iff in H. apply negb_true_iff. now apply word_first_more.
Qed.

Lemma import_pattern_runs s :
  match_here import_pattern None s
  = star_chr isspace
             (fun st => exec import_keyword st (fun st' => Some st'))
             None s None.
Proof.
  unfold match_here, import_pattern.
  change (seqs [Star space;
                Group (alts [lit "import"; lit "using"; lit "require"]);
                WordBoundary])
    with (Seq (Star space) import_keyword).
  change (exec (Seq (Star space) import_keyword) ?st ?k)
    with (exec (Star (Chr isspace)) st (fun st1 => exec import_keyword st1 k)).
  now rewrite exec_star_chr.
Qed.

Lemma star_chr_import_more s :
  forall prev,
    is_some (star_chr isspace
               (fun st => exec import_keyword st (fun st' => Some st'))
               prev s None) = true ->
    is_some (star_chr isspace
               (fun st => exec import_keyword st (fun st' => Some st'))
               prev (String.append s (String newline EmptyString)) None)
    = true.
Proof.
  induction s as [| c s IH]; intros prev H.
  - cbn [star_chr] in H. rewrite import_keyword_matches in H. discriminate.
  - cbn [String.append star_chr] in *.
    destruct (isspace c) eqn:Hc.
    + rewrite import_keyword_not_after_space in H by exact Hc.
      destruct (star_chr isspace _ (Some c) s None) eqn:Hs; [| discriminate].
      specialize (IH (Some c)). rewrite Hs in IH. specialize (IH eq_refl).
      destruct (star_chr isspace _ (Some c) (String.append s _) None);
        [reflexivity | discriminate].
    + rewrite import_keyword_matches in *.
      now apply (starts_with_import_keyword_more (String c s)).
Qed.

(** A line that matches the import pattern still matches it with its
    line feed in place. *)
Lemma import_line_with_terminator l :
  re_match import_pattern l = true ->
  re_match import_pattern (snoc l newline) = true.
Proof.
  unfold re_match, snoc. rewrite !import_pattern_runs.
  intros H. apply (star_chr_import_more l None).
  now destruct (star_chr _ _ _ _ _).
Qed.

Lemma count_abstract_imports_from lines :
  forall start,
    fold_left
      (fun n line =>
         if re_match import_pattern line then
           if re_search abstraction_pattern line then n + 1 else n
         else n)
      lines start
    = start
      + List.length
          (filter (fun line => re_match import_pattern line
                               && re_search abstraction_pattern line)
                  lines).
Proof.
  induction lines as [| line lines IH]; intros start; cbn [fold_left filter].
  - cbn. lia.
  - rewrite IH.
    destruct (re_match import_pattern line); cbn [andb];
      [destruct (re_search abstraction_pattern line) |]; cbn [List.length];
      lia.
Qed.

Lemma count_abstract_imports_filter text :
  count_abstract_imports text
  = List.length
      (filter (fun line => re_match import_pattern line
                           && re_search abstraction_pattern line)
              (splitlines text)).
Proof.
  unfold count_abstract_imports. now rewrite count_abstract_imports_from.
Qed.

Lemma count_import_lines_filter fs total fm :
  count_import_lines fs total fm
  = total + match read_text fs (path fm) with
            | Some text => import_lines text
            | None => 0
            end.
Proof.
  unfold count_import_lines, import_lines.
  destruct (read_text fs (path fm)) as [text |]; [| lia].
  revert total.
  induction (readlines text) as [| line lines IH]; intros total;
    cbn [fold_left filter].
  - cbn. lia.
  - rewrite IH. destruct (re_match import_pattern line); cbn [List.length];
      lia.
Qed.

(** With the line feed as only line boundary, the lines [str.splitlines]
    gives are those read from the file, without their terminator. *)
Lemma split_lines_against_read_lines (f g : string -> bool) :
  (forall l, f l = true -> g l = true /\ g (snoc l newline) = true) ->
  forall s cur,
    lf_only s = true ->
    List.length (filter f (splitlines_from cur s))
    <= List.length (filter g (lines_from cur s)).
Proof.
  intros Hfg.
  induction s as [| c s IH]; intros cur Hs.
  - cbn [splitlines_from lines_from].
    destruct cur; [cbn; lia |].
    cbn [filter].
    destruct (f (String a cur)) eqn:Hf; [| cbn; lia].
    destruct (Hfg _ Hf) as [-> _]. cbn. lia.
  - cbn [lf_only] in Hs. apply andb_true_iff in Hs. destruct Hs as [Hc Hs].
    cbn [splitlines_from lines_from].
    destruct (Ascii.eqb_spec c newline) as [-> | Hnl].
    + replace (is_line_boundary newline) with true by reflexivity.
      replace (newline =? carriage_return)%char with false by reflexivity.
      cbn [filter]. specialize (IH EmptyString Hs).
      destruct (f cur) eqn:Hf.
      * destruct (Hfg _ Hf) as [_ ->]. cbn [List.length]. lia.
      * destruct (g (snoc cur newline)); cbn [List.length]; lia.
    + rewrite orb_false_r in Hc. apply negb_true_iff in Hc. rewrite Hc.
      now apply IH.
Qed.

Lemma universal_newlines_lf_only_step s :
  (common_breaks_only s = true -> lf_only (universal_newlines s) = true)
  /\ (forall c, common_breaks_only (String c s) = true ->
                lf_only (universal_newlines (String c s)) = true).
Proof.
  induction s as [| d s [IHs IHd]].
  - split; [reflexivity |].
    intros c Hc. cbn [common_breaks_only] in Hc. rewrite andb_true_r in Hc.
    cbn [universal_newlines].
    destruct (c =? carriage_return)%char eqn:Hcr; [reflexivity |].
    cbn [lf_only]. rewrite orb_false_r in Hc. now rewrite Hc.
  - split; [apply IHd |].
    intros c Hc. cbn [common_breaks_only] in Hc.
    apply andb_true_iff in Hc. destruct Hc as [Hc Hrest].
    cbn [universal_newlines].
    destruct (c =? carriage_return)%char eqn:Hcr.
    + assert (Hnl : forall t, lf_only t = true ->
                              lf_only (String newline t) = true).
      { intros t Ht. cbn [lf_only]. rewrite Ht.
        replace (newline =? newline)%char with true by reflexivity.
        now rewrite orb_true_r. }
      assert (Hs : common_breaks_only s = true)
        by now apply andb_true_iff in Hrest.
      assert (Hds : common_breaks_only (String d s) = true) by exact Hrest.
      destruct (d =? newline)%char.
      * apply Hnl, IHs, Hs.
      * apply Hnl, IHd, Hds.
    + rewrite orb_false_r in Hc.
      change (lf_only (String c (universal_newlines (String d s))) = true).
      cbn [lf_only]. rewrite Hc. cbn [andb]. apply IHd. exact Hrest.
Qed.

Lemma universal_newlines_lf_only s :
  common_breaks_only s = true -> lf_only (universal_newlines s) = true.
Proof. apply universal_newlines_lf_only_step. Qed.

(** In a text whose only line boundary is the line feed, the import
    lines that mention an abstraction are at most the import lines. *)
Lemma abstract_imports_at_most_imports text :
  lf_only text = true -> count_abstract_imports text <= import_lines text.
Proof.
  intros Htext. rewrite count_abstract_imports_filter.
  unfold import_lines, splitlines, readlines.
  apply split_lines_against_read_lines; [| exact Htext].
  intros l Hl. apply andb_true_iff in Hl. destruct Hl as [Hl _].
  split; [exact Hl | now apply import_line_with_terminator].
Qed.

End ImportLines.

(* ================================================================== *)
(** * Further properties of the evaluators *)
(* ================================================================== *)

Section EvaluatorEdges.

Variable fs : filesystem.

Lemma solid_totals_snoc files fm :
  solid_totals fs (files ++ [fm]) = solid_step fs (solid_totals fs files) fm.
Proof. unfold solid_totals. now rewrite fold_left_app. Qed.

Lemma import_total_snoc files fm :
  import_total fs (files ++ [fm])
  = count_import_lines fs (import_total fs files) fm.
Proof. unfold import_total. now rewrite fold_left_app. Qed.

(** Abstraction-mentioning import lines against import lines, over a
    run whose files have no line boundary but LF and CR. *)
Lemma abstract_imports_bounded files :
  (forall fm raw,
      In fm files -> fs (path fm) = Holds raw ->
      common_breaks_only (decode_ignore raw) = true) ->
  uses_abstract_in_imports (solid_totals fs files) <= import_total fs files.
Proof.
  induction files as [| fm files IH] using rev_ind; intros Hfiles.
  - cbn. lia.
  - rewrite solid_totals_snoc, import_total_snoc, count_import_lines_filter.
    cbn [solid_step uses_abstract_in_imports].
    assert (IH' : uses_abstract_in_imports (solid_totals fs files)
                  <= import_total fs files).
    { apply IH. intros fm' raw Hin. apply Hfiles. now apply in_snoc_l. }
    unfold text_or_empty, read_text.
    destruct (fs (path fm)) as [| raw] eqn:Hfs.
    + change (count_abstract_imports EmptyString) with 0. lia.
    + assert (Hle := abstract_imports_at_most_imports
                       (universal_newlines (decode_ignore raw))
                       (universal_newlines_lf_only _
                          (Hfiles fm raw (in_snoc_r fm files) Hfs))).
      lia.
Qed.

(** Once an assignment line has been seen, no later file adds to the
    pure-function count. *)
Lemma pure_count_frozen files :
  forall acc,
    total_assignments acc <> 0 ->
    pure_functions (fold_left (functional_step fs) files acc)
    = pure_functions acc.
Proof.
  induction files as [| fm files IH]; intros acc Hacc; cbn [fold_left].
  - reflexivity.
  - assert (Hstep :
              total_assignments (functional_step fs acc fm) <> 0
              /\ pure_functions (functional_step fs acc fm)
                 = pure_functions acc).
    { unfold functional_step.
      destruct (read_text fs (path fm)) as [text |]; [| auto].
      cbn [total_assignments pure_functions].
      split; [lia |].
      destruct (0 <? num_functions fm); [| reflexivity].
      replace (total_assignments acc
               + List.length (findall assignment_pattern text) =? 0)
        with false by (symmetry; apply Nat.eqb_neq; lia).
      reflexivity. }
    destruct Hstep as [Hnz Hpure]. now rewrite IH, Hpure.
Qed.

Lemma double_zero_fraction p : to_double (0 # p) = 0%Q.
Proof. apply to_double_zero. unfold Qeq. reflexivity. Qed.

Lemma round3_zero_fraction p : (round3 (to_double (0 # p)) == 0)%Q.
Proof. rewrite double_zero_fraction. vm_compute. reflexivity. Qed.

Lemma round3_capped_zero_fraction p :
  (round3 (Qmin 1 (to_double (0 # p))) == 0)%Q.
Proof. rewrite double_zero_fraction. vm_compute. reflexivity. Qed.

Lemma round3_degrade_zero_fraction p :
  (round3 (degrade (to_double (0 # p))) == 1)%Q.
Proof. rewrite double_zero_fraction. vm_compute. reflexivity. Qed.

(** The totals of a run none of whose files can be reread. *)
Lemma totals_of_unreadable_files files :
  (forall fm, In fm files -> fs (path fm) = Unopenable) ->
  classes_with_inheritance (solid_totals fs files) = 0
  /\ interface_methods (solid_totals fs files) = 0
  /\ uses_abstract_in_imports (solid_totals fs files) = 0
  /\ import_total fs files = 0
  /\ functional_totals fs files = mkFunctionalCounts 0 0 0 0.
Proof.
  induction files as [| fm files IH] using rev_ind; intros Hfiles.
  - repeat split.
  - destruct IH as (Hc & Hi & Hu & Ht & Hf).
    { intros fm' Hin. apply Hfiles. now apply in_snoc_l. }
    assert (Hfm := Hfiles fm (in_snoc_r fm files)).
    rewrite solid_totals_snoc, import_total_snoc, functional_totals_snoc.
    unfold solid_step, count_import_lines, functional_step, text_or_empty,
      read_text.
    rewrite Hfm.
    cbn [classes_with_inheritance interface_methods uses_abstract_in_imports].
    rewrite Hc, Hi, Hu, Ht, Hf.
    repeat split.
Qed.

End EvaluatorEdges.

(** X14.  On every run both evaluators return a result, and each score
    other than dependency_inversion lies between 0 and 1. *)
Theorem seven_scores_in_unit_interval fs files :
  exists s f,
    evaluate_solid fs files = Some s
    /\ evaluate_functional fs files = Some f
    /\ in_unit (single_responsibility s)
    /\ in_unit (open_closed s)
    /\ in_unit (interface_segregation s)
    /\ in_unit (liskov_substitution s)
    /\ in_unit (purity f)
    /\ in_unit (higher_order_usage f)
    /\ in_unit (immutability f).
Proof. apply scores_other_than_dependency_inversion_in_unit. Qed.

(** X15.  For records whose files hold text of characters U+0000..U+00FF
    only (the alphabet of this development, which leaves out U+2028 and
    U+2029) with no line boundary other than LF and CR (no VT, FF, FS,
    GS, RS or NEL), dependency_inversion lies between 0 and 1: the
    import lines that mention an abstraction are then among the import
    lines. *)
Theorem dependency_inversion_in_unit_without_rare_breaks fs files :
  (forall fm raw,
      In fm files -> fs (path fm) = Holds raw ->
      common_breaks_only (decode_ignore raw) = true) ->
  exists s,
    evaluate_solid fs files = Some s /\ in_unit (dependency_inversion s).
Proof.
  intros Hfiles.
  destruct (evaluate_solid_returns fs files)
    as (srp & ocp & isp & dip & _ & _ & _ & Hdip & Heval).
  eexists. split; [exact Heval |].
  cbn [dependency_inversion]. apply round3_in_unit.
  rewrite dip_score_value in Hdip. injection Hdip as <-.
  destruct (import_total fs files =? 0) eqn:Hzero; [apply zero_in_unit |].
  apply double_fraction_in_unit; [| now apply Nat.eqb_neq].
  now apply abstract_imports_bounded.
Qed.

Lemma dependency_inversion_in_unit_without_rare_breaks_witness :
  exists s,
    evaluate_solid windows_fs windows_run = Some s
    /\ (dependency_inversion s == 1 # 2)%Q
    /\ in_unit (dependency_inversion s).
Proof.
  destruct (dependency_inversion_in_unit_without_rare_breaks
              windows_fs windows_run) as (s & Heval & Hunit).
  { intros fm raw [<- | []]. vm_compute. intros [= <-]. reflexivity. }
  exists s. split; [exact Heval |]. split; [| exact Hunit].
  assert (Hs : exists s', evaluate_solid windows_fs windows_run = Some s'
                          /\ (dependency_inversion s' == 1 # 2)%Q)
    by (eexists; split; vm_compute; reflexivity).
  destruct Hs as (s' & Heval' & Hhalf).
  rewrite Heval in Heval'. injection Heval' as <-. exact Hhalf.
Defined.

(** X16.  The pure-function count of a run is the count reached before
    its first file with an assignment line: that file and every file
    after it add nothing.  So a run that starts with such a file has
    purity 0, whatever follows. *)
Theorem no_purity_after_an_assignment fs before fm after :
  assignment_lines fs fm <> 0 ->
  pure_functions (functional_totals fs (before ++ fm :: after))
  = pure_functions (functional_totals fs before)
  /\ (before = [] ->
      exists s, evaluate_functional fs (fm :: after) = Some s
                /\ (purity s == 0)%Q).
Proof.
  intros Hfm.
  assert (Hfrozen :
            forall l,
              pure_functions (functional_totals fs (l ++ fm :: after))
              = pure_functions (functional_totals fs l)).
  { intros l. unfold functional_totals.
    rewrite fold_left_app. cbn [fold_left].
    assert (Hstep :
              total_assignments
                (functional_step fs
                   (fold_left (functional_step fs) l
                      (mkFunctionalCounts 0 0 0 0)) fm) <> 0
              /\ pure_functions
                   (functional_step fs
                      (fold_left (functional_step fs) l
                         (mkFunctionalCounts 0 0 0 0)) fm)
                 = pure_functions
                     (fold_left (functional_step fs) l
                        (mkFunctionalCounts 0 0 0 0))).
    { unfold functional_step. unfold assignment_lines in Hfm.
      destruct (read_text fs (path fm)) as [text |]; [| contradiction].
      cbn [total_assignments pure_functions].
      split; [lia |].
      destruct (0 <? num_functions fm); [| reflexivity].
      match goal with
      | |- context [?n =? 0] =>
          replace (n =? 0) with false
          by (symmetry; apply Nat.eqb_neq; lia)
      end.
      reflexivity. }
    destruct Hstep as [Hnz Hpure].
    now rewrite pure_count_frozen, Hpure. }
  split; [apply Hfrozen |].
  intros _.
  destruct (evaluate_functional_returns fs (fm :: after))
    as (p & h & i & Hp & _ & _ & Heval).
  eexists. split; [exact Heval |].
  cbn [purity].
  rewrite purity_score_value in Hp. injection Hp as <-.
  assert (Hnone := Hfrozen []). cbn [app] in Hnone. rewrite Hnone.
  change (pure_functions (functional_totals fs [])) with 0.
  destruct (sum_functions (fm :: after) =? 0); [reflexivity |].
  apply round3_zero_fraction.
Qed.

Lemma no_purity_after_an_assignment_witness :
  assignment_lines report_fs_assign assign_record <> 0
  /\ exists s,
      evaluate_functional report_fs_assign (assign_record :: helper_run)
      = Some s
      /\ (purity s == 0)%Q.
Proof.
  split; [vm_compute; discriminate |].
  apply (no_purity_after_an_assignment report_fs_assign [] assign_record
           helper_run).
  - vm_compute. discriminate.
  - reflexivity.
Defined.

(** X17.  When none of the files of the records can be reread, both
    evaluators still return: open_closed is 0 as soon as the records
    count a class, interface_segregation is 1, and dependency_inversion,
    purity, higher_order_usage and immutability are 0. *)
Theorem scores_of_unreadable_files fs files :
  (forall fm, In fm files -> fs (path fm) = Unopenable) ->
  exists s f,
    evaluate_solid fs files = Some s
    /\ evaluate_functional fs files = Some f
    /\ (open_closed s == if class_total files =? 0 then 1 else 0)%Q
    /\ (interface_segregation s == 1)%Q
    /\ (dependency_inversion s == 0)%Q
    /\ (purity f == 0)%Q
    /\ (higher_order_usage f == 0)%Q
    /\ (immutability f == 0)%Q.
Proof.
  intros Hfiles.
  destruct (totals_of_unreadable_files fs files Hfiles)
    as (Hc & Hi & Hu & Ht & Hf).
  destruct (evaluate_solid_returns fs files)
    as (srp & ocp & isp & dip & _ & Hocp & Hisp & Hdip & Hsolid).
  destruct (evaluate_functional_returns fs files)
    as (p & h & i & Hp & Hh & Himm & Hfunctional).
  do 2 eexists.
  split; [exact Hsolid |]. split; [exact Hfunctional |].
  cbn [open_closed interface_segregation dependency_inversion
         purity higher_order_usage immutability].
  rewrite ocp_score_value in Hocp. injection Hocp as <-.
  rewrite isp_score_value in Hisp. injection Hisp as <-.
  rewrite dip_score_value in Hdip. injection Hdip as <-.
  rewrite purity_score_value in Hp. injection Hp as <-.
  rewrite hof_score_value in Hh. injection Hh as <-.
  rewrite immutability_score_value in Himm. injection Himm as <-.
  destruct (solid_totals_sums fs files) as (Hclasses & _ & _ & _).
  cbv zeta in Hclasses.
  rewrite Hc, Hi, Ht, Hf, Hclasses.
  cbn [pure_functions higher_order_count immutable_count total_assignments
         Nat.eqb].
  split.
  { destruct (class_total files =? 0);
      [reflexivity | apply round3_capped_zero_fraction]. }
  split.
  { destruct (total_interfaces (solid_totals fs files) =? 0);
      [reflexivity | apply round3_degrade_zero_fraction]. }
  split; [reflexivity |].
  split.
  { destruct (sum_functions files =? 0);
      [reflexivity | apply round3_zero_fraction]. }
  split; apply round3_capped_zero_fraction.
Qed.

Lemma scores_of_unreadable_files_witness :
  exists s f,
    evaluate_solid vanished_fs vanished_with_class = Some s
    /\ evaluate_functional vanished_fs vanished_with_class = Some f
    /\ (open_closed s == 0)%Q
    /\ (interface_segregation s == 1)%Q
    /\ (purity f == 0)%Q.
Proof.
  destruct (scores_of_unreadable_files vanished_fs vanished_with_class)
    as (s & f & Hs & Hf & Hocp & Hisp & _ & Hp & _).
  { intros fm _. reflexivity. }
  exists s, f. repeat split; assumption.
Defined.

(* ================================================================== *)
(** * The statistics of the summary *)
(* ================================================================== *)

Section Summary.

Lemma scanner_record_bounds fs p m :
  analyse_file fs p = Some m ->
  comment_count m <= line_count m
  /\ long_line_count m <= line_count m
  /\ 1 <= cyclomatic_complexity m.
Proof.
  unfold analyse_file.
  destruct (read_text fs p) as [text |]; [| discriminate].
  intros [= <-].
  unfold scan_lines.
  cbn [with_complexity comment_count long_line_count line_count
         cyclomatic_complexity].
  apply (fold_left_invariant
           (fun st => comment_count (metrics st) <= line_count (metrics st)
                      /\ long_line_count (metrics st)
                         <= line_count (metrics st)
                      /\ 1 <= complexity st)).
  - intros st line (Hc & Hl & Hx).
    rewrite scan_line_line_count, scan_line_comments, scan_line_long_lines,
      scan_line_complexity.
    destruct (is_comment_line (strip line)),
      (79 <? String.length (rstrip_newlines line)); lia.
  - cbn. lia.
Qed.

Lemma list_sum_map_le {A : Type} (f g : A -> nat) l :
  Forall (fun x => f x <= g x) l ->
  list_sum (map f l) <= list_sum (map g l).
Proof.
  induction 1 as [| x l Hx _ IH]; [cbn; lia |].
  cbn [map]. rewrite !list_sum_cons. lia.
Qed.

Lemma ratio_or_zero_value a b :
  Main.ratio_or_zero a b
  = Some (if b =? 0 then 0%Q else Z.of_nat a # Pos.of_nat b).
Proof. unfold Main.ratio_or_zero, truediv. destruct b; reflexivity. Qed.

Lemma fraction_at_least_one a b :
  b <> 0 -> b <= a -> (1 <= Z.of_nat a # Pos.of_nat b)%Q.
Proof.
  intros Hb Hab.
  assert (Hpos : Z.pos (Pos.of_nat b) = Z.of_nat b).
  { now rewrite <- Znat.positive_nat_Z, Nat2Pos.id. }
  unfold Qle. cbn [Qnum Qden]. rewrite Hpos. lia.
Qed.

End Summary.

(** X18.  For the records of scanned files the statistics of the summary
    are always defined (no division by zero, also for an empty run or
    for empty files), the overall comment ratio and long-line ratio lie
    between 0 and 1, the average complexity of a non-empty run is at
    least 1, and the number of files with mixed indentation is at most
    the number of files. *)
Theorem summary_statistics_of_scanned_records fs files :
  scanned_records fs files ->
  exists st,
    Main.summary_statistics files = Some st
    /\ Main.total_files st = List.length files
    /\ in_unit (Main.comment_ratio st)
    /\ in_unit (Main.long_line_ratio st)
    /\ (files <> [] -> (1 <= Main.avg_complexity st)%Q)
    /\ Main.mixed_indent_files st <= Main.total_files st.
Proof.
  intros Hscanned. unfold Main.summary_statistics.
  rewrite !ratio_or_zero_value. cbn [bind].
  eexists. split; [reflexivity |].
  cbn [Main.total_files Main.comment_ratio Main.long_line_ratio
         Main.avg_complexity Main.mixed_indent_files].
  split; [reflexivity |].
  assert (Hbounds :
            Forall (fun m => comment_count m <= line_count m
                             /\ long_line_count m <= line_count m
                             /\ 1 <= cyclomatic_complexity m) files).
  { eapply Forall_impl; [| exact Hscanned].
    intros m [p Hp]. exact (scanner_record_bounds fs p m Hp). }
  split; [| split; [| split]].
  - destruct (list_sum (map line_count files) =? 0) eqn:Hzero;
      [apply zero_in_unit |].
    apply fraction_in_unit; [| now apply Nat.eqb_neq].
    apply list_sum_map_le.
    eapply Forall_impl; [| exact Hbounds]. now intros m (H & _ & _).
  - destruct (list_sum (map line_count files) =? 0) eqn:Hzero;
      [apply zero_in_unit |].
    apply fraction_in_unit; [| now apply Nat.eqb_neq].
    apply list_sum_map_le.
    eapply Forall_impl; [| exact Hbounds]. now intros m (_ & H & _).
  - intros Hne.
    destruct (List.length files =? 0) eqn:Hzero.
    + apply Nat.eqb_eq in Hzero. apply length_zero_iff_nil in Hzero.
      contradiction.
    + apply fraction_at_least_one; [now apply Nat.eqb_neq |].
      rewrite <- (length_map (fun _ : FileMetrics => 1) files) at 1.
      assert (Hones : forall l : list FileMetrics,
                 List.length (map (fun _ => 1) l)
                 = list_sum (map (fun _ => 1) l)).
      { induction l as [| x l IHl]; [reflexivity |].
        cbn [map List.length]. rewrite list_sum_cons. lia. }
      rewrite Hones. apply list_sum_map_le.
      eapply Forall_impl; [| exact Hbounds]. now intros m (_ & _ & H).
  - apply filter_length_le.
Qed.

Lemma summary_statistics_of_scanned_records_witness :
  exists st,
    Main.summary_statistics report_run = Some st
    /\ Main.total_files st = 2
    /\ in_unit (Main.comment_ratio st)
    /\ (1 <= Main.avg_complexity st)%Q.
Proof.
  destruct (summary_statistics_of_scanned_records report_fs report_run)
    as (st & Hst & Hfiles & Hc & _ & Havg & _).
  { unfold scanned_records, report_run.
    repeat constructor.
    - exists "proj/helper.py". vm_compute. reflexivity.
    - exists "proj/report.py". vm_compute. reflexivity. }
  exists st. split; [exact Hst |].
  split; [rewrite Hfiles; vm_compute; reflexivity |].
  split; [exact Hc |].
  apply Havg. vm_compute. discriminate.
Defined.

(* ================================================================== *)
(** * Lines counted as functions *)
(* ================================================================== *)

Section CallLikeLines.

Lemma star_chr_complete p k run :
  forall prev s' g,
    all_chars p run = true ->
    is_some (k (MState (last_char run prev) s' g)) = true ->
    is_some (star_chr p k prev (String.append run s') g) = true.
Proof.
  induction run as [| c run IH]; intros prev s' g Hrun Hk.
  - cbn [String.append last_char] in *.
    destruct s' as [| d s']; cbn [star_chr]; [exact Hk |].
    destruct (p d); [| exact Hk].
    destruct (star_chr p k (Some d) s' g); [reflexivity | exact Hk].
  - cbn [all_chars] in Hrun. apply andb_true_iff in Hrun.
    destruct Hrun as [Hc Hrun].
    cbn [String.append star_chr]. rewrite Hc.
    specialize (IH (Some c) s' g Hrun Hk).
    destruct (star_chr p k (Some c) (String.append run s') g);
      [reflexivity | discriminate].
Qed.

(** A greedy repetition may stop after any run of its class from which
    the rest of the pattern matches. *)
Lemma star_seq_complete p r st k run s' :
  rest st = String.append run s' ->
  all_chars p run = true ->
  is_some (exec r (MState (last_char run (before st)) s' (group1 st)) k)
  = true ->
  is_some (exec (Seq (Star (Chr p)) r) st k) = true.
Proof.
  intros Hrest Hrun Hk.
  change (exec (Seq (Star (Chr p)) r) st k)
    with (exec (Star (Chr p)) st (fun st1 => exec r st1 k)).
  rewrite exec_star_chr, Hrest.
  now apply star_chr_complete.
Qed.

Lemma chr_seq_complete p r st k c s :
  rest st = String c s -> p c = true ->
  is_some (exec r (MState (Some c) s (group1 st)) k) = true ->
  is_some (exec (Seq (Chr p) r) st k) = true.
Proof.
  intros Hrest Hc Hk.
  change (exec (Seq (Chr p) r) st k)
    with (exec (Chr p) st (fun st1 => exec r st1 k)).
  cbn [exec]. now rewrite Hrest, Hc.
Qed.

Lemma plus_seq_complete p r st k c run s' :
  rest st = String c (String.append run s') -> p c = true ->
  all_chars p run = true ->
  is_some (exec r (MState (last_char run (Some c)) s' (group1 st)) k)
  = true ->
  is_some (exec (Seq (plus (Chr p)) r) st k) = true.
Proof.
  intros Hrest Hc Hrun Hk.
  change (exec (Seq (plus (Chr p)) r) st k)
    with (exec (Seq (Chr p) (Seq (Star (Chr p)) r)) st k).
  apply (chr_seq_complete p _ st k c (String.append run s') Hrest Hc).
  now apply (star_seq_complete p r _ k run s').
Qed.

Lemma opt_seq_complete g r st k :
  is_some (exec r st k) = true ->
  is_some (exec (Seq (opt g) r) st k) = true.
Proof.
  intros Hk.
  change (exec (Seq (opt g) r) st k)
    with (match exec g st (fun st1 => exec r st1 k) with
          | Some res => Some res
          | None => exec r st k
          end).
  destruct (exec g st (fun st1 => exec r st1 k)); [reflexivity | exact Hk].
Qed.

(** A line that begins with blanks, a word and a parenthesised text
    matches the function pattern. *)
Lemma call_like_matches ws w0 w inner tail :
  all_chars isspace ws = true ->
  isword w0 = true -> all_chars isword w = true ->
  all_chars (fun c => negb (c =? newline)%char) inner = true ->
  any_match function_patterns (call_like ws (String w0 w) inner tail) = true.
Proof.
  intros Hws Hw0 Hw Hinner.
  unfold any_match, function_patterns, call_like.
  cbn [existsb seqs]. rewrite orb_false_r.
  unfold re_match, match_here.
  match goal with
  | |- match ?e with Some _ => true | None => false end = true =>
      change (is_some e = true)
  end.
  unfold space, word, dot, chr.
  match goal with
  | |- is_some (exec (Seq (Bol false) ?r) ?st ?k) = true =>
      change (is_some (exec r st k) = true)
  end.
  eapply (star_seq_complete isspace _ _ _ ws); [reflexivity | exact Hws |].
  apply opt_seq_complete.
  eapply (star_seq_complete isspace _ _ _ EmptyString);
    [reflexivity | reflexivity |].
  cbn [before rest group1 last_char String.append].
  eapply (plus_seq_complete isword _ _ _ w0 w);
    [reflexivity | exact Hw0 | exact Hw |].
  cbn [group1].
  eapply (star_seq_complete isspace _ _ _ EmptyString);
    [reflexivity | reflexivity |].
  cbn [before rest group1 last_char].
  eapply chr_seq_complete; [reflexivity | reflexivity |].
  cbn [group1].
  eapply (star_seq_complete _ _ _ _ inner); [reflexivity | exact Hinner |].
  cbn [exec rest]. rewrite Ascii.eqb_refl. reflexivity.
Qed.

End CallLikeLines.

(** X19.  A line made of optional blanks, a word, and a parenthesised
    text right after it adds 1 to the function counter, whatever the
    word: calls such as [print(x)] and statements such as [if(x)] count
    as functions. *)
Theorem call_like_lines_count_as_functions st ws w0 w inner tail :
  all_chars isspace ws = true ->
  isword w0 = true -> all_chars isword w = true ->
  all_chars (fun c => negb (c =? newline)%char) inner = true ->
  num_functions
    (metrics (scan_line st (call_like ws (String w0 w) inner tail)))
  = num_functions (metrics st) + 1.
Proof.
  intros Hws Hw0 Hw Hinner.
  rewrite scan_line_functions.
  now rewrite call_like_matches.
Qed.

Lemma call_like_lines_count_as_functions_witness :
  call_like "    " "print" "x" (String newline EmptyString)
  = String.append "    print(x)" (String newline EmptyString)
  /\ forall st,
      num_functions
        (metrics (scan_line st (call_like "    " "print" "x"
                                          (String newline EmptyString))))
      = num_functions (metrics st) + 1.
Proof.
  split; [reflexivity |].
  intros st.
  apply (call_like_lines_count_as_functions st "    " "p" "rint" "x");
    reflexivity.
Defined.

(* ================================================================== *)
(** * The order of the records *)
(* ================================================================== *)

Section RecordOrder.

Variable fs : filesystem.

Lemma fold_left_permutation {A B : Type} (f : A -> B -> A) :
  (forall a x y, f (f a x) y = f (f a y) x) ->
  forall l l', Permutation l l' ->
               forall a, fold_left f l a = fold_left f l' a.
Proof.
  intros Hcomm l l' Hperm.
  induction Hperm as [| x l l' _ IH | x y l | l l' l'' _ IH1 _ IH2];
    intros a; cbn [fold_left].
  - reflexivity.
  - apply IH.
  - now rewrite Hcomm.
  - now rewrite IH1.
Qed.

Lemma solid_step_commutes a x y :
  solid_step fs (solid_step fs a x) y = solid_step fs (solid_step fs a y) x.
Proof.
  unfold solid_step.
  cbn [total_classes total_functions classes_with_inheritance
         total_interfaces interface_methods uses_abstract_in_imports].
  f_equal; lia.
Qed.

Lemma count_import_lines_commutes n x y :
  count_import_lines fs (count_import_lines fs n x) y
  = count_import_lines fs (count_import_lines fs n y) x.
Proof. rewrite !count_import_lines_filter. lia. Qed.

(** The three order-independent accumulators of the functional loop. *)
Lemma functional_sums_permutation l l' :
  Permutation l l' ->
  forall a a',
    higher_order_count a = higher_order_count a' ->
    immutable_count a = immutable_count a' ->
    total_assignments a = total_assignments a' ->
    higher_order_count (fold_left (functional_step fs) l a)
    = higher_order_count (fold_left (functional_step fs) l' a')
    /\ immutable_count (fold_left (functional_step fs) l a)
       = immutable_count (fold_left (functional_step fs) l' a')
    /\ total_assignments (fold_left (functional_step fs) l a)
       = total_assignments (fold_left (functional_step fs) l' a').
Proof.
  assert (Hstep : forall a a' x,
             higher_order_count a = higher_order_count a' ->
             immutable_count a = immutable_count a' ->
             total_assignments a = total_assignments a' ->
             higher_order_count (functional_step fs a x)
             = higher_order_count (functional_step fs a' x)
             /\ immutable_count (functional_step fs a x)
                = immutable_count (functional_step fs a' x)
             /\ total_assignments (functional_step fs a x)
                = total_assignments (functional_step fs a' x)).
  { intros a a' x Hh Hi Ht. unfold functional_step.
    destruct (read_text fs (path x)); [| auto].
    cbn [higher_order_count immutable_count total_assignments].
    rewrite Hh, Hi, Ht. auto. }
  assert (Hswap : forall a x y,
             higher_order_count (functional_step fs (functional_step fs a x) y)
             = higher_order_count
                 (functional_step fs (functional_step fs a y) x)
             /\ immutable_count
                  (functional_step fs (functional_step fs a x) y)
                = immutable_count
                    (functional_step fs (functional_step fs a y) x)
             /\ total_assignments
                  (functional_step fs (functional_step fs a x) y)
                = total_assignments
                    (functional_step fs (functional_step fs a y) x)).
  { intros a x y. unfold functional_step.
    destruct (read_text fs (path x)), (read_text fs (path y));
      cbn [higher_order_count immutable_count total_assignments];
      repeat split; lia. }
  induction 1 as [| x l l' _ IH | x y l | l l' l'' _ IH1 _ IH2];
    intros a a' Hh Hi Ht; cbn [fold_left].
  - auto.
  - destruct (Hstep a a' x Hh Hi Ht) as (H1 & H2 & H3). now apply IH.
  - destruct (Hswap a y x) as (S1 & S2 & S3).
    destruct (Hstep a a' x Hh Hi Ht) as (E1 & E2 & E3).
    destruct (Hstep _ _ y E1 E2 E3) as (H1 & H2 & H3).
    assert (G : forall l0 b b',
               higher_order_count b = higher_order_count b' ->
               immutable_count b = immutable_count b' ->
               total_assignments b = total_assignments b' ->
               higher_order_count (fold_left (functional_step fs) l0 b)
               = higher_order_count (fold_left (functional_step fs) l0 b')
               /\ immutable_count (fold_left (functional_step fs) l0 b)
                  = immutable_count (fold_left (functional_step fs) l0 b')
               /\ total_assignments (fold_left (functional_step fs) l0 b)
                  = total_assignments (fold_left (functional_step fs) l0 b')).
    { induction l0 as [| z l0 IHl]; intros b b' B1 B2 B3; cbn [fold_left];
        [auto |].
      destruct (Hstep b b' z B1 B2 B3) as (C1 & C2 & C3). now apply IHl. }
    apply G; congruence.
  - destruct (IH1 a a' Hh Hi Ht) as (H1 & H2 & H3).
    destruct (IH2 a' a' eq_refl eq_refl eq_refl) as (G1 & G2 & G3).
    repeat split; congruence.
Qed.

End RecordOrder.

(** X20.  The scores of [evaluate_solid], and higher_order_usage and
    immutability, do not depend on the order of the records.  Purity
    does: the same two records give 1/2 in one order and 0 in the
    other. *)
Theorem scores_and_record_order :
  (forall fs files files',
      Permutation files files' ->
      evaluate_solid fs files = evaluate_solid fs files'
      /\ exists f f',
          evaluate_functional fs files = Some f
          /\ evaluate_functional fs files' = Some f'
          /\ higher_order_usage f = higher_order_usage f'
          /\ immutability f = immutability f')
  /\ (exists f f',
         evaluate_functional report_fs_assign [helper_record; assign_record]
         = Some f
         /\ evaluate_functional report_fs_assign
              [assign_record; helper_record] = Some f'
         /\ (purity f == 1 # 2)%Q /\ (purity f' == 0)%Q).
Proof.
  split.
  - intros fs files files' Hperm.
    split.
    + unfold evaluate_solid, solid_totals, import_total.
      rewrite (fold_left_permutation _ (solid_step_commutes fs) _ _ Hperm).
      rewrite (fold_left_permutation _ (count_import_lines_commutes fs)
                 _ _ Hperm).
      reflexivity.
    + destruct (evaluate_functional_returns fs files)
        as (p & h & i & _ & Hh & Hi & Heval).
      destruct (evaluate_functional_returns fs files')
        as (p' & h' & i' & _ & Hh' & Hi' & Heval').
      do 2 eexists. split; [exact Heval |]. split; [exact Heval' |].
      cbn [higher_order_usage immutability].
      rewrite hof_score_value in Hh, Hh'.
      rewrite immutability_score_value in Hi, Hi'.
      injection Hh as <-. injection Hh' as <-.
      injection Hi as <-. injection Hi' as <-.
      destruct (functional_sums_permutation fs files files' Hperm
                  (mkFunctionalCounts 0 0 0 0) (mkFunctionalCounts 0 0 0 0)
                  eq_refl eq_refl eq_refl) as (H1 & H2 & H3).
      unfold functional_totals. rewrite H1, H2, H3.
      assert (Hsum : sum_functions files = sum_functions files').
      { unfold sum_functions. apply fold_left_permutation; [| exact Hperm].
        intros a x y. lia. }
      rewrite Hsum. split; reflexivity.
  - do 2 eexists.
    split; [vm_compute; reflexivity |].
    split; [vm_compute; reflexivity |].
    split; vm_compute; reflexivity.
Qed.

Lemma scores_and_record_order_witness :
  evaluate_solid report_fs_assign [helper_record; assign_record]
  = evaluate_solid report_fs_assign [assign_record; helper_record].
Proof.
  destruct scores_and_record_order as [Horder _].
  apply (Horder report_fs_assign [helper_record; assign_record]
           [assign_record; helper_record]).
  apply perm_swap.
Defined.

(* ================================================================== *)
(** * What the classifier looks at *)
(* ================================================================== *)

Section ClassifierInput.

Lemma lower_char_slash c : (lower_char c =? "/")%char = (c =? "/")%char.
Proof. destruct c as [[] [] [] [] [] [] [] []]; reflexivity. Qed.

Lemma lower_char_dot c : (lower_char c =? ".")%char = (c =? ".")%char.
Proof. destruct c as [[] [] [] [] [] [] [] []]; reflexivity. Qed.

Lemma lower_char_idempotent c : lower_char (lower_char c) = lower_char c.
Proof. destruct c as [[] [] [] [] [] [] [] []]; reflexivity. Qed.

Lemma lower_idempotent s : lower (lower s) = lower s.
Proof.
  induction s as [| c s IH]; cbn; [reflexivity |].
  now rewrite lower_char_idempotent, IH.
Qed.

Lemma basename_from_lower s :
  forall cur,
    basename_from (lower cur) (lower s) = lower (basename_from cur s).
Proof.
  induction s as [| c s IH]; intros cur; cbn [lower basename_from].
  - reflexivity.
  - rewrite lower_char_slash.
    destruct (c =? "/")%char; [apply (IH EmptyString) |].
    rewrite <- IH. unfold snoc. now rewrite lower_append.
Qed.

Lemma lstrip_dots_lower s : lstrip_dots (lower s) = lower (lstrip_dots s).
Proof.
  induction s as [| c s IH]; cbn [lower lstrip_dots]; [reflexivity |].
  rewrite lower_char_dot. destruct (c =? ".")%char; [exact IH | reflexivity].
Qed.

Lemma last_dot_suffix_lower s :
  last_dot_suffix (lower s) = option_map lower (last_dot_suffix s).
Proof.
  induction s as [| c s IH]; cbn [lower last_dot_suffix]; [reflexivity |].
  rewrite IH. destruct (last_dot_suffix s); [reflexivity |].
  cbn [option_map]. rewrite lower_char_dot.
  destruct (c =? ".")%char; reflexivity.
Qed.

Lemma basename_lower p : basename (lower p) = lower (basename p).
Proof. exact (basename_from_lower p EmptyString). Qed.

Lemma splitext_ext_lower p : splitext_ext (lower p) = lower (splitext_ext p).
Proof.
  unfold splitext_ext.
  rewrite basename_lower, lstrip_dots_lower, last_dot_suffix_lower.
  destruct (last_dot_suffix _); reflexivity.
Qed.

End ClassifierInput.

(** X21.  The classifier looks at the letters of the name without their
    case, and only at the entry name: putting a path in lower case, or
    joining a directory in front of an entry name, does not change the
    language. *)
Theorem language_depends_on_entry_name_without_case :
  (forall p, detect_language (lower p) = detect_language p)
  /\ (forall dir fname,
         no_slash fname = true ->
         detect_language (path_join dir fname) = detect_language fname).
Proof.
  split.
  - intros p. unfold detect_language.
    now rewrite splitext_ext_lower, lower_idempotent.
  - exact detect_language_path_join.
Qed.

Lemma language_depends_on_entry_name_without_case_witness :
  detect_language "Main.JAVA" = "java"
  /\ detect_language (path_join "src/app.v2" "Main.JAVA") = "java".
Proof.
  destruct language_depends_on_entry_name_without_case as [Hcase Hjoin].
  split.
  - rewrite <- Hcase. reflexivity.
  - rewrite Hjoin by reflexivity. rewrite <- Hcase. reflexivity.
Defined.
